(** * MetaICL model wrapper: scorer, inference runner, prediction selector,
      training loop and optimizer setup of [metaicl/model.py].

    The development is a shallow embedding of the Python methods of
    [MetaICLModel].  Tensors are lists, torch and numpy scalars are IEEE-754
    values of the Standard Library's [spec_float] (binary32 for torch,
    binary64 for numpy and Python floats), Python exceptions are an explicit
    error type, and the side effects of the training loop are an event trace.
    The language model, the token-level cross entropy, the reductions
    [torch.sum], [np.sum] and [np.mean] (whose order of additions the libraries
    choose), [exp] and the optimiser internals are external to the file and
    are taken as an interface. *)

From Stdlib Require Import String Ascii.
From Stdlib Require Import ZArith List Bool Lia Permutation FinFun.
From Stdlib Require Import DecimalString DecimalZ.
From Stdlib Require Import Floats.SpecFloat.
Import ListNotations.
Open Scope Z_scope.

(* ------------------------------------------------------------------ *)
(** ** IEEE-754 scalars *)

Record format := { prec : Z; emax : Z }.

(** torch's default dtype, the dtype of the losses in [run_model]. *)
Definition binary32 : format := {| prec := 24; emax := 128 |}.
(** Python floats and numpy's float64, the dtype after [.tolist()]. *)
Definition binary64 : format := {| prec := 53; emax := 1024 |}.

Definition float := spec_float.

Definition fadd (f : format) : float -> float -> float := SFadd (prec f) (emax f).
Definition fmul (f : format) : float -> float -> float := SFmul (prec f) (emax f).
Definition fdiv (f : format) : float -> float -> float := SFdiv (prec f) (emax f).
Definition fneg : float -> float := SFopp.
Definition flt : float -> float -> bool := SFltb.
Definition fzero : float := S754_zero false.

(** Conversion of an integer to a float (round to nearest even). *)
Definition of_int (f : format) (z : Z) : float :=
  binary_normalize (prec f) (emax f) z 0 false.

(** Conversion of a float to another format, exact when widening. *)
Definition convert (f : format) (x : float) : float :=
  match x with
  | S754_finite s m e => binary_round (prec f) (emax f) s m e
  | _ => x
  end.

Definition is_nan (x : float) : bool :=
  match x with S754_nan => true | _ => false end.

Definition is_zero (x : float) : bool :=
  match x with S754_zero _ => true | _ => false end.

Definition is_finite_nonzero (x : float) : bool :=
  match x with S754_finite _ _ _ => true | _ => false end.

Definition zero_or_nan (x : float) : bool := is_zero x || is_nan x.

(** Left-to-right summation from [0.0].  The libraries' reductions add in
    an order of their own; this one is only what the stand-in models of the
    examples use for them. *)
Definition fsum (f : format) (l : list float) : float :=
  fold_left (fadd f) l fzero.

(** The mean as the quotient of the left-to-right sum by the length, for the
    same stand-in models. *)
Definition fmean (f : format) (l : list float) : float :=
  fdiv f (fsum f l) (of_int f (Z.of_nat (length l))).

(** What every IEEE-754 summation does, in whatever order and precision it
    adds: a NaN entry makes the sum NaN, and entries that are all zeros or
    NaN give a zero or NaN. *)
Definition propagates_nan (sum : list float -> float) : Prop :=
  forall l, In S754_nan l -> sum l = S754_nan.

Definition keeps_zeros (sum : list float -> float) : Prop :=
  forall l, Forall (fun x => zero_or_nan x = true) l -> zero_or_nan (sum l) = true.

(* ------------------------------------------------------------------ *)
(** ** 64-bit integers (torch [long] tensors) *)

Definition wrap64 (z : Z) : Z := (z + 2 ^ 63) mod 2 ^ 64 - 2 ^ 63.

Definition zsum (l : list Z) : Z := fold_left Z.add l 0.

(** [torch.sum] of a [long] tensor row: the sum wraps around in int64. *)
Definition isum (l : list Z) : Z := wrap64 (zsum l).

(* ------------------------------------------------------------------ *)
(** ** Tensors as lists *)

(** A [batch x length] tensor. *)
Definition tensor2 (A : Type) := list (list A).

(** [t[..., :-1]] along the sequence axis. *)
Definition drop_last {A} (t : tensor2 A) : tensor2 A := map (@removelast A) t.

(** [t[..., 1:]] along the sequence axis. *)
Definition drop_first {A} (t : tensor2 A) : tensor2 A := map (@tl A) t.

(** [t.view(-1)] (or [t.view(-1, V)] when the elements are vocabulary rows). *)
Definition view_flat {A} (t : tensor2 A) : list A := concat t.

(** [t.view(rows, cols)] of a flat tensor. *)
Fixpoint view2 {A} (rows cols : nat) (l : list A) : tensor2 A :=
  match rows with
  | O => []
  | S r => firstn cols l :: view2 r cols (skipn cols l)
  end.

Definition size0 {A} (t : tensor2 A) : nat := length t.
Definition size1 {A} (t : tensor2 A) : nat := length (hd [] t).

Fixpoint map2 {A B C} (f : A -> B -> C) (l1 : list A) (l2 : list B) : list C :=
  match l1, l2 with
  | a :: l1', b :: l2' => f a b :: map2 f l1' l2'
  | _, _ => []
  end.

(** Rectangular [batch x len] shape. *)
Definition shape2 {A} (b len : nat) (t : tensor2 A) : Prop :=
  length t = b /\ Forall (fun r => length r = len) t.

(* ------------------------------------------------------------------ *)
(** ** The external numeric interface *)

(** [W] is the state of the wrapped model (weights, gradients, optimiser and
    scheduler state).  None of these functions is defined in model.py. *)
Class Torch (W : Type) := {
  (** [self.model(input_ids=..., attention_mask=...).logits]:
      one row of vocabulary logits per position. *)
  forward : W -> tensor2 Z -> tensor2 Z -> tensor2 (list float);
  (** [len([param for param in self.model.parameters() if param.requires_grad])] *)
  n_trainable_params : W -> Z;
  (** [CrossEntropyLoss(reduction="none")] on one row of logits. *)
  cross_entropy : list float -> Z -> float;
  (** [torch.sum] of one row of a float32 tensor. *)
  torch_sum : list float -> float;
  (** [t.mean()] of a one-dimensional float32 tensor. *)
  torch_mean : list float -> float;
  (** [loss.backward()] (through [amp.scale_loss] when the flag is set). *)
  backward : bool -> W -> float -> W;
  clip_grad_norm_ : W -> float -> W;
  optimizer_step : W -> W;
  scheduler_step : W -> W;
  zero_grad : W -> W
}.

Class Numpy := {
  (** [np.exp] on a float64. *)
  np_exp : float -> float;
  (** [np.sum] and [ndarray.sum] of a float64 array. *)
  np_sum : list float -> float;
  (** [np.mean] of a list of float32 scalars. *)
  np_mean : list float -> float
}.

(* ------------------------------------------------------------------ *)
(** ** Scorer: [run_model] *)

Section Scorer.
Context {W : Type} `{Torch W}.

(** [loss_fct(logits.view(-1, V), labels.view(-1))] with no reduction. *)
Definition loss_fct (logits : list (list float)) (labels : list Z) : list float :=
  map2 cross_entropy logits labels.

(** [losses * label_mask]: the [long] mask is promoted to the float dtype. *)
Definition mul_mask (losses : tensor2 float) (label_mask : tensor2 Z) : tensor2 float :=
  map2 (map2 (fun l m => fmul binary32 l (of_int binary32 m))) losses label_mask.

Definition run_model (w : W) (input_ids attention_mask token_type_ids : tensor2 Z)
           (labels : option (tensor2 Z)) : list float :=
  let outputs := forward w input_ids attention_mask in
  let logits := drop_last outputs in
  let labels := match labels with None => input_ids | Some l => l end in
  let labels := drop_first labels in
  let label_mask := drop_first token_type_ids in
  let losses := loss_fct (view_flat logits) (view_flat labels) in
  let losses := mul_mask (view2 (size0 logits) (size1 logits) losses) label_mask in
  map2 (fun s n => fdiv binary32 s (of_int binary32 n))
       (map torch_sum losses) (map isum label_mask).

(** *** The scorer as the specification words it, example by example *)

(** Per-token cross entropy of one example between the logits without the
    last position and the targets without the first one, times the shifted
    label mask. *)
Definition masked_token_losses (logits : list (list float)) (targets mask : list Z)
  : list float :=
  map2 (fun l m => fmul binary32 l (of_int binary32 m))
       (map2 cross_entropy (removelast logits) (tl targets)) (tl mask).

(** Number of masked (nonzero label-mask) tokens among the scored positions. *)
Definition count_masked (mask : list Z) : Z :=
  Z.of_nat (length (filter (fun m => negb (m =? 0)) (tl mask))).

(** Normalisation by the number of masked tokens. *)
Definition score_by_count (logits : list (list float)) (targets mask : list Z) : float :=
  fdiv binary32 (torch_sum (masked_token_losses logits targets mask))
       (of_int binary32 (count_masked mask)).

(** Normalisation by the sum of the shifted mask entries. *)
Definition score_by_sum (logits : list (list float)) (targets mask : list Z) : float :=
  fdiv binary32 (torch_sum (masked_token_losses logits targets mask))
       (of_int binary32 (isum (tl mask))).

Fixpoint map3 {A B C D} (f : A -> B -> C -> D) (l1 : list A) (l2 : list B) (l3 : list C)
  : list D :=
  match l1, l2, l3 with
  | a :: l1', b :: l2', c :: l3' => f a b c :: map3 f l1' l2' l3'
  | _, _, _ => []
  end.

Definition targets_of (input_ids : tensor2 Z) (labels : option (tensor2 Z)) : tensor2 Z :=
  match labels with None => input_ids | Some l => l end.

Definition spec_scores_by_count (w : W) (input_ids attention_mask token_type_ids : tensor2 Z)
           (labels : option (tensor2 Z)) : list float :=
  map3 score_by_count (forward w input_ids attention_mask)
       (targets_of input_ids labels) token_type_ids.

Definition spec_scores_by_sum (w : W) (input_ids attention_mask token_type_ids : tensor2 Z)
           (labels : option (tensor2 Z)) : list float :=
  map3 score_by_sum (forward w input_ids attention_mask)
       (targets_of input_ids labels) token_type_ids.

(** A batch the model accepts: [b] examples of [len] tokens. *)
Definition batch_shape (b len : nat) (w : W) (input_ids attention_mask token_type_ids : tensor2 Z)
           (labels : option (tensor2 Z)) : Prop :=
  shape2 b len input_ids /\ shape2 b len token_type_ids /\
  shape2 b len (targets_of input_ids labels) /\
  shape2 b len (forward w input_ids attention_mask).
End Scorer.

(* ------------------------------------------------------------------ *)
(** ** Python values and exceptions *)

Inductive exn :=
| AssertionError | IndexError | ZeroDivisionError | NotImplementedError | ImportError
| TypeError.

Inductive result (A : Type) :=
| Ok (a : A)
| Raise (e : exn).
Arguments Ok {A} a.
Arguments Raise {A} e.

Definition bind {A B} (r : result A) (k : A -> result B) : result B :=
  match r with
  | Ok a => k a
  | Raise e => Raise e
  end.

Notation "x <- r ;; k" := (bind r (fun x => k))
  (at level 61, r at next level, right associativity).

Definition raises {A} (r : result A) (e : exn) : Prop := r = Raise e.
Definition succeeds {A} (r : result A) : Prop := exists a, r = Ok a.

Fixpoint mapM {A B} (f : A -> result B) (l : list A) : result (list B) :=
  match l with
  | [] => Ok []
  | a :: l' => b <- f a ;; bs <- mapM f l' ;; Ok (b :: bs)
  end.

(** [l[i]] for a Python list or a numpy array: negative indices count from
    the end, anything outside [-len, len) raises [IndexError]. *)
Definition py_index {A} (l : list A) (i : Z) : result A :=
  let n := Z.of_nat (length l) in
  if (i <? - n) || (n <=? i) then Raise IndexError
  else match nth_error l (Z.to_nat (if i <? 0 then i + n else i)) with
       | Some a => Ok a
       | None => Raise IndexError
       end.

(** [a % b] on Python integers. *)
Definition py_mod (a b : Z) : result Z :=
  if b =? 0 then Raise ZeroDivisionError else Ok (a mod b).

(** [enumerate(l)]. *)
Definition enumerate {A} (l : list A) : list (Z * A) :=
  combine (map Z.of_nat (seq 0 (length l))) l.

(** Characters that [str.strip()] removes, among the code points below 256. *)
Definition py_isspace (c : ascii) : bool :=
  let n := Z.of_nat (nat_of_ascii c) in
  ((9 <=? n) && (n <=? 13)) || ((28 <=? n) && (n <=? 32)) || (n =? 133) || (n =? 160).

Fixpoint lstrip (s : list ascii) : list ascii :=
  match s with
  | c :: s' => if py_isspace c then lstrip s' else s
  | [] => []
  end.

Definition strip (s : string) : string :=
  string_of_list_ascii (rev (lstrip (rev (lstrip (list_ascii_of_string s))))).

(** [sorted(l, key=key, reverse=reverse)]: a stable sort that compares keys
    with [<] only.  Python guarantees the result when [<] orders the keys;
    with [reverse] the order is descending and equal keys still keep their
    original order. *)
Section Sorted.
Context {A : Type}.
(** [before a b]: [a] has to come strictly before [b]. *)
Variable before : A -> A -> bool.

Fixpoint insert_sorted (x : A) (l : list A) : list A :=
  match l with
  | [] => [x]
  | y :: l' => if before y x then y :: insert_sorted x l' else x :: l
  end.

Fixpoint stable_sort (l : list A) : list A :=
  match l with
  | [] => []
  | x :: l' => insert_sorted x (stable_sort l')
  end.

(** The earliest entry of [x :: l] that no other entry has to come before. *)
Fixpoint first_best (x : A) (l : list A) : A :=
  match l with
  | [] => x
  | y :: l' => let m := first_best y l' in if before m x then m else x
  end.
End Sorted.

Definition key_before {A} (key : A -> float) (reverse : bool) (a b : A) : bool :=
  if reverse then flt (key b) (key a) else flt (key a) (key b).

Definition py_sorted {A} (key : A -> float) (reverse : bool) (l : list A) : list A :=
  stable_sort (key_before key reverse) l.

(* ------------------------------------------------------------------ *)
(** ** The data provider *)

(** A batch is the tuple [(input_ids, attention_mask, token_type_ids)] with
    an optional fourth component [labels]. *)
Record Batch := {
  input_ids : tensor2 Z;
  attention_mask : tensor2 Z;
  token_type_ids : tensor2 Z;
  labels : option (tensor2 Z)
}.

(** One entry [dp] of [data.metadata]. *)
Record Metadata := {
  options : list string;
  indices : list (list Z)
}.

(** A dataloader yields a sequence of batches each time it is iterated; the
    argument is the number of earlier iterations (a shuffling loader yields a
    different sequence each time). *)
Definition dataloader := nat -> list Batch.

Record Data := {
  (** [data.get_dataloader(batch_size, is_training, calibration)] *)
  get_dataloader : Z -> bool -> bool -> dataloader;
  (** [len(data)] *)
  data_len : Z;
  metadata : list Metadata
}.

(* ------------------------------------------------------------------ *)
(** ** Inference runner: [do_inference] *)

Section Inference.
Context {W : Type} `{Torch W} `{Numpy}.

Definition softmax (x : list float) : list float :=
  map (fun e => fdiv binary64 e (np_sum (map np_exp x))) (map np_exp x).

(** [loss.cpu().detach().numpy().tolist()] *)
Definition tolist (loss : list float) : list float := map (convert binary64) loss.

Definition score_batch (w : W) (batch : Batch) : list float :=
  run_model w (input_ids batch) (attention_mask batch) (token_type_ids batch) (labels batch).

Definition do_inference (w : W) (data : Data) (batch_size : Z)
           (verbose calibration do_probs : bool) : list float :=
  let dataloader := get_dataloader data batch_size false calibration in
  let losses :=
    fold_left (fun losses batch => losses ++ tolist (score_batch w batch))
              (dataloader 0%nat) [] in
  if do_probs then softmax (map fneg losses) else losses.

(* ------------------------------------------------------------------ *)
(** ** Prediction selector: [do_predict] *)

(** A prediction is a bare option string or a pair [[option, score]]. *)
Inductive prediction :=
| Bare (option_ : string)
| Scored (option_ : string) (score : float).

(** [np.sum(losses[indices])] for one option. *)
Definition option_loss (losses : list float) (idxs : list Z) : result float :=
  picked <- mapM (py_index losses) idxs ;;
  Ok (np_sum picked).

(** [[np.sum(losses[indices]) for indices in dp["indices"]]] *)
Definition aggregated (losses : list float) (dp : Metadata) : result (list float) :=
  mapM (option_loss losses) (indices dp).

(** The body of the loop over [data.metadata]. *)
Definition predict_example (losses : list float) (require_loss : bool)
           (label_id : option Z) (do_probs : bool)
           (predictions : list prediction) (dp : Metadata) : result (list prediction) :=
  curr_label_losses <- aggregated losses dp ;;
  predictions <-
    match label_id with
    | Some label_id =>
        prediction <- py_index (options dp) label_id ;;
        negative_pred_prob <- py_index curr_label_losses label_id ;;
        Ok (predictions ++ [Scored (strip prediction) negative_pred_prob])
    | None => Ok predictions
    end ;;
  if negb require_loss then
    first <- py_index (py_sorted snd false (enumerate curr_label_losses)) 0 ;;
    prediction <- py_index (options dp) (fst first) ;;
    Ok (predictions ++ [Bare (strip prediction)])
  else
    let reverse := if do_probs then true else false in
    prediction_terms <- py_index (py_sorted snd reverse (enumerate curr_label_losses)) 0 ;;
    prediction <- py_index (options dp) (fst prediction_terms) ;;
    Ok (predictions ++ [Scored (strip prediction) (snd prediction_terms)]).

Definition do_predict (w : W) (data : Data) (batch_size : Z) (losses : option (list float))
           (verbose require_loss : bool) (label_id : option Z)
           (calibration do_probs : bool) : result (list prediction) :=
  let losses := do_inference w data batch_size verbose false do_probs in
  if negb (Z.of_nat (length losses) =? data_len data) then Raise AssertionError
  else
    fold_left (fun acc dp =>
                 predictions <- acc ;;
                 predict_example losses require_loss label_id do_probs predictions dp)
              (metadata data) (Ok []).
End Inference.

(* ------------------------------------------------------------------ *)
(** ** What the selector is expected to pick *)

(** [best_at reverse aggs k]: the aggregated score at [k] is minimal (maximal
    with [reverse]) and [k] is the first position with that property. *)
Definition best_at (reverse : bool) (aggs : list float) (k : nat) (a : float) : Prop :=
  nth_error aggs k = Some a
  /\ forall j b, nth_error aggs j = Some b ->
                 (if reverse then flt a b else flt b a) = false
                 /\ ((j < k)%nat -> (if reverse then flt b a else flt a b) = true).


Section SelectorSpec.
Context {W : Type} `{Torch W} `{Numpy}.

(** [a] is the sum of [losses[i]] over the index set [idxs]. *)
Definition sums_over (losses : list float) (idxs : list Z) (a : float) : Prop :=
  exists picked, Forall2 (fun i v => py_index losses i = Ok v) idxs picked
                 /\ a = np_sum picked.

(** An example the selector can rank: every index is inside the loss array,
    there is at least one option, no aggregated score is NaN, and there are
    as many options as index sets. *)
Definition rankable (losses : list float) (dp : Metadata) : Prop :=
  exists aggs, aggregated losses dp = Ok aggs /\ aggs <> []
               /\ Forall (fun a => is_nan a = false) aggs
               /\ length (options dp) = length (indices dp).

(** Option [k] of [dp] is [opt], its aggregated score is [a], and it is the
    first option with the least (with [reverse]: the greatest) score. *)
Definition selected (reverse : bool) (losses : list float) (dp : Metadata)
           (k : nat) (a : float) (opt : string) : Prop :=
  exists aggs, Forall2 (sums_over losses) (indices dp) aggs
               /\ best_at reverse aggs k a /\ nth_error (options dp) k = Some opt.

(** The option at [label_id] is [opt] and its aggregated score is [a]. *)
Definition labelled (losses : list float) (dp : Metadata) (label_id : Z)
           (a : float) (opt : string) : Prop :=
  exists aggs, Forall2 (sums_over losses) (indices dp) aggs
               /\ py_index aggs label_id = Ok a /\ py_index (options dp) label_id = Ok opt.

(** [label_id] is a valid Python index into the options of [dp]. *)
Definition label_in_range (label_id : Z) (dp : Metadata) : Prop :=
  - Z.of_nat (length (options dp)) <= label_id < Z.of_nat (length (options dp)).

(** The entries one example contributes to the prediction list. *)
Definition example_entries (losses : list float) (require_loss : bool) (label_id : option Z)
           (do_probs : bool) (dp : Metadata) (entries : list prediction) : Prop :=
  exists k a opt,
    selected (require_loss && do_probs) losses dp k a opt
    /\ exists first,
        match label_id with
        | None => first = []
        | Some l => exists la lopt, labelled losses dp l la lopt
                                    /\ first = [Scored (strip lopt) la]
        end
        /\ entries = first ++ [if require_loss then Scored (strip opt) a
                               else Bare (strip opt)].
End SelectorSpec.

(* ------------------------------------------------------------------ *)
(** ** Training loop: [do_train] *)

(** The fields of [self] that the training loop and the optimiser setup
    read.  The loop runs on an object whose [model], [optimizer] and
    [scheduler] attributes have been set by [load] and [setup_optimizer]. *)
Record Self := {
  (** [None] unless the caller passes a directory *)
  out_dir : option string;
  fp16 : bool;
  local_rank : Z;
  n_gpu : Z;
  (** [self.scheduler is not None] *)
  has_scheduler : bool
}.

(** Which of the optional packages can be imported. *)
Record Env := {
  apex_importable : bool;
  bitsandbytes_importable : bool
}.

Inductive log_msg :=
| MsgTraining (parameters examples steps gpus : Z)
| MsgTrainLoss (rank step : Z) (mean_loss : float)
| MsgSaving (step : Z)
| MsgFinish.

(** What the loop does to the outside world, in order. *)
Inductive event :=
| LogInfo (msg : log_msg)
| PrintStop (loss : float)
| Backward (scaled : bool)
| ClipGradNorm (max_norm : float)
| OptimizerStep
| SchedulerStep
| ZeroGrad
| TorchSave (step : Z).

Inductive control := Next | Break.

Section Training.
Context {W : Type} `{Torch W} `{Numpy}.

Record train_state := {
  global_step : Z;
  train_losses : list float;
  stop_training : bool;
  weights : W;
  trace : list event
}.

(** [self.save(step)] as the loop sees it: on the primary process the file
    name is built with [os.path.join(self.out_dir, ...)], a [TypeError] when
    [out_dir] is [None], before anything is written or logged. *)
Definition save (self : Self) (step : Z) : result (list event) :=
  if local_rank self <=? 0 then
    match out_dir self with
    | Some _ => Ok [TorchSave step; LogInfo (MsgSaving step)]
    | None => Raise TypeError
    end
  else Ok [].

(** The backward pass of one step; with [fp16] it starts with
    [from apex import amp]. *)
Definition backward_pass (self : Self) (env : Env) (w : W) (loss : float) : result W :=
  if fp16 self then
    if apex_importable env then Ok (backward true w loss) else Raise ImportError
  else Ok (backward false w loss).

(** The optimiser update of an accumulation boundary. *)
Definition apply_update (self : Self) (max_grad_norm : float) (w : W) : W * list event :=
  let w := clip_grad_norm_ w max_grad_norm in
  let w := optimizer_step w in
  let '(w, sched) :=
    if has_scheduler self then (scheduler_step w, [SchedulerStep]) else (w, []) in
  (zero_grad w, [ClipGradNorm max_grad_norm; OptimizerStep] ++ sched ++ [ZeroGrad]).

(** The body of [for batch in dataloader]. *)
Definition train_batch (self : Self) (env : Env)
           (num_training_steps save_period log_period gradient_accumulation_steps : Z)
           (max_grad_norm : float) (st : train_state) (batch : Batch)
  : result (train_state * control) :=
  let global_step := global_step st + 1 in
  let loss := torch_mean (run_model (weights st) (input_ids batch) (attention_mask batch)
                                    (token_type_ids batch) (labels batch)) in
  if is_nan loss then
    Ok ({| global_step := global_step; train_losses := train_losses st;
           stop_training := true; weights := weights st;
           trace := trace st ++ [PrintStop loss] |}, Break)
  else
    let train_losses := train_losses st ++ [loss] in
    w <- backward_pass self env (weights st) loss ;;
    let tr := trace st ++ [Backward (fp16 self)] in
    r <- py_mod global_step gradient_accumulation_steps ;;
    let '(w, tr) :=
      if r =? 0 then
        let '(w, evs) := apply_update self max_grad_norm w in (w, tr ++ evs)
      else (w, tr) in
    r <- py_mod global_step log_period ;;
    let '(train_losses, tr) :=
      if r =? 0 then
        ([], tr ++ [LogInfo (MsgTrainLoss (local_rank self) global_step (np_mean train_losses))])
      else (train_losses, tr) in
    r <- py_mod global_step save_period ;;
    saved <- (if r =? 0 then save self global_step else Ok []) ;;
    let tr := tr ++ saved in
    Ok ({| global_step := global_step; train_losses := train_losses;
           stop_training := stop_training st; weights := w; trace := tr |},
        if global_step =? num_training_steps then Break else Next).

(** [for batch in dataloader: ...] *)
Fixpoint train_epoch (step : train_state -> Batch -> result (train_state * control))
         (st : train_state) (batches : list Batch) : result train_state :=
  match batches with
  | [] => Ok st
  | batch :: rest =>
      r <- step st batch ;;
      match r with
      | (st', Break) => Ok st'
      | (st', Next) => train_epoch step st' rest
      end
  end.

(** [for epoch in range(num_training_steps): ...] *)
Fixpoint train_epochs (step : train_state -> Batch -> result (train_state * control))
         (num_training_steps : Z) (dl : dataloader)
         (st : train_state) (epochs : list nat) : result train_state :=
  match epochs with
  | [] => Ok st
  | epoch :: rest =>
      st' <- train_epoch step st (dl epoch) ;;
      if global_step st' =? num_training_steps then Ok st'
      else train_epochs step num_training_steps dl st' rest
  end.

Definition do_train (self : Self) (env : Env) (w : W) (data : Data) (batch_size : Z)
           (num_training_steps save_period log_period gradient_accumulation_steps : Z)
           (max_grad_norm : float) : result train_state :=
  let dataloader := get_dataloader data batch_size true false in
  let st := {| global_step := 0; train_losses := []; stop_training := false; weights := w;
               trace := [LogInfo (MsgTraining (n_trainable_params w) (data_len data)
                                            num_training_steps (n_gpu self))] |} in
  st <- train_epochs
          (train_batch self env num_training_steps save_period log_period
                       gradient_accumulation_steps max_grad_norm)
          num_training_steps dataloader st (seq 0 (Z.to_nat num_training_steps)) ;;
  Ok {| global_step := global_step st; train_losses := train_losses st;
        stop_training := stop_training st; weights := weights st;
        trace := trace st ++ [LogInfo MsgFinish] |}.

(** The events of one optimiser update. *)
Definition update_events (self : Self) (max_grad_norm : float) : list event :=
  [ClipGradNorm max_grad_norm; OptimizerStep]
    ++ (if has_scheduler self then [SchedulerStep] else []) ++ [ZeroGrad].


(** The loss the loop computes for a batch under the weights [w]. *)
Definition batch_loss (w : W) (batch : Batch) : float :=
  torch_mean (run_model w (input_ids batch) (attention_mask batch)
                        (token_type_ids batch) (labels batch)).


Definition is_optimizer_step (e : event) : bool :=
  match e with OptimizerStep => true | _ => false end.

Definition is_backward (e : event) : bool :=
  match e with Backward _ => true | _ => false end.

Definition is_print_stop (e : event) : bool :=
  match e with PrintStop _ => true | _ => false end.

Definition count_events (p : event -> bool) (tr : list event) : nat :=
  length (filter p tr).

End Training.

(* ------------------------------------------------------------------ *)
(** ** Optimiser setup: [setup_optimizer] and [setup_fp16] *)

Inductive optimizer_class := Adafactor | AdamW | Adam8bit.

Record param_group (P : Type) := {
  params : list P;
  weight_decay : float
}.
Arguments params {P} _.
Arguments weight_decay {P} _.

Record optimizer (P : Type) := {
  opt_class : optimizer_class;
  opt_groups : list (param_group P);
  opt_lr : float;
  (** wrapped by [amp.initialize] *)
  opt_amp : bool
}.
Arguments opt_class {P} _.
Arguments opt_groups {P} _.
Arguments opt_lr {P} _.
Arguments opt_amp {P} _.

(** [get_linear_schedule_with_warmup(optimizer, num_warmup_steps, num_training_steps)] *)
Record scheduler := {
  num_warmup_steps : Z;
  sched_training_steps : Z
}.

(** [sub in s] on strings. *)
Fixpoint contains (sub s : string) : bool :=
  String.prefix sub s ||
  match s with
  | EmptyString => false
  | String _ s' => contains sub s'
  end.

Section Optimizer.
Context {P : Type}.

Definition no_decay : list string := ["bias"%string; "LayerNorm.weight"%string].

Definition optimizer_grouped_parameters (named_parameters : list (string * P))
           (weight_decay : float) : list (param_group P) :=
  [ {| params := map snd (filter (fun np => negb (existsb (fun nd => contains nd (fst np)) no_decay))
                                 named_parameters);
       weight_decay := weight_decay |};
    {| params := map snd (filter (fun np => existsb (fun nd => contains nd (fst np)) no_decay)
                                 named_parameters);
       weight_decay := fzero |} ].

Definition setup_fp16 (env : Env) (opt : optimizer P) : result (optimizer P) :=
  if apex_importable env then
    Ok {| opt_class := opt_class opt; opt_groups := opt_groups opt;
          opt_lr := opt_lr opt; opt_amp := true |}
  else Raise ImportError.

Definition setup_optimizer (env : Env) (self : Self) (named_parameters : list (string * P))
           (optimization : string) (num_training_steps : Z) (lr weight_decay : float)
           (warmup_steps : Z) : result (optimizer P * option scheduler) :=
  let groups := optimizer_grouped_parameters named_parameters weight_decay in
  if String.eqb optimization "adafactor" then
    Ok ({| opt_class := Adafactor; opt_groups := groups; opt_lr := lr; opt_amp := false |},
        None)
  else if String.prefix "adamw" optimization then
    let optimizer := {| opt_class := AdamW; opt_groups := groups; opt_lr := lr;
                        opt_amp := false |} in
    optimizer <- (if fp16 self then setup_fp16 env optimizer else Ok optimizer) ;;
    if String.eqb optimization "adamw" then
      Ok (optimizer, Some {| num_warmup_steps := warmup_steps;
                             sched_training_steps := num_training_steps |})
    else Raise NotImplementedError
  else if String.eqb optimization "8bit-adam" then
    if negb (bitsandbytes_importable env) then Raise ImportError
    else
      let optimizer := {| opt_class := Adam8bit; opt_groups := groups; opt_lr := lr;
                          opt_amp := false |} in
      optimizer <- (if fp16 self then setup_fp16 env optimizer else Ok optimizer) ;;
      Ok (optimizer, Some {| num_warmup_steps := warmup_steps;
                             sched_training_steps := num_training_steps |})
  else Raise NotImplementedError.

Definition supported (optimization : string) : bool :=
  String.eqb optimization "adafactor" || String.eqb optimization "adamw"
  || String.eqb optimization "8bit-adam".
End Optimizer.

(* ------------------------------------------------------------------ *)
(** ** A small concrete model, used to run the definitions on examples *)

(** A stand-in for the language model: eight-token vocabulary, constant
    logits, and a token loss equal to the target token id, so that examples
    with chosen losses are easy to write down.  The state counts the
    optimiser steps applied so far. *)
#[export] Instance token_loss_torch : Torch nat := {
  forward _ ids _ := map (map (fun _ => repeat fzero 8)) ids;
  n_trainable_params _ := 3;
  cross_entropy _ target := of_int binary32 target;
  torch_sum := fsum binary32;
  torch_mean := fmean binary32;
  backward _ w _ := w;
  clip_grad_norm_ w _ := w;
  optimizer_step w := S w;
  scheduler_step w := w;
  zero_grad w := w
}.

(** [exp] is not computable on [spec_float]; the examples below never set
    [do_probs], so any function can stand for it.  Sums and means are taken
    from left to right. *)
#[export] Instance placeholder_numpy : Numpy := {
  np_exp x := x;
  np_sum := fsum binary64;
  np_mean := fmean binary32
}.

(** One example of two tokens whose second token is scored. *)
Definition scored_batch : Batch :=
  {| input_ids := [[5; 7]]; attention_mask := [[1; 1]];
     token_type_ids := [[0; 1]]; labels := None |}.

(** The same example with no scored token. *)
Definition unscored_batch : Batch :=
  {| input_ids := [[5; 7]]; attention_mask := [[1; 1]];
     token_type_ids := [[0; 0]]; labels := None |}.

(** Four scored items with losses 5.0, 1.0, 3.0 and 4.0, in one batch, and one
    example with three options; the third option owns the last two items, so
    the aggregated losses are 5.0, 1.0 and 7.0. *)
Definition four_items : Batch :=
  {| input_ids := [[0; 5]; [0; 1]; [0; 3]; [0; 4]];
     attention_mask := [[1; 1]; [1; 1]; [1; 1]; [1; 1]];
     token_type_ids := [[0; 1]; [0; 1]; [0; 1]; [0; 1]];
     labels := None |}.

Definition three_options : Data :=
  {| get_dataloader := fun _ _ _ _ => [four_items];
     data_len := 4;
     metadata := [ {| options := [" apple"%string; "banana "%string; "cherry"%string];
                      indices := [[0]; [1]; [2; 3]] |} ] |}.

(** Three named parameters, one of each kind that [setup_optimizer] tells apart. *)
Definition three_parameters : list (string * nat) :=
  [("h.0.attn.weight"%string, 0%nat); ("h.0.attn.bias"%string, 1%nat);
   ("h.0.LayerNorm.weight"%string, 2%nat)].

(** [fp16] training on a machine without apex and without bitsandbytes. *)
Definition fp16_self : Self :=
  {| out_dir := Some "out"%string; fp16 := true; local_rank := -1; n_gpu := 1;
     has_scheduler := true |}.
Definition fp32_self : Self :=
  {| out_dir := Some "out"%string; fp16 := false; local_rank := -1; n_gpu := 1;
     has_scheduler := true |}.
Definition bare_env : Env := {| apex_importable := false; bitsandbytes_importable := false |}.
Definition full_env : Env := {| apex_importable := true; bitsandbytes_importable := true |}.
(** apex installed, bitsandbytes not. *)
Definition apex_only_env : Env := {| apex_importable := true; bitsandbytes_importable := false |}.

(** Training data whose every pass yields the given batches. *)
Definition training_data (batches : list Batch) : Data :=
  {| get_dataloader := fun _ _ _ _ => batches; data_len := Z.of_nat (length batches);
     metadata := [] |}.

(* ------------------------------------------------------------------ *)
(** ** Finite values, trimmed strings, index bounds *)
(** A float that is neither NaN nor infinite. *)
Definition is_finite (x : float) : bool :=
  match x with
  | S754_zero _ | S754_finite _ _ _ => true
  | _ => false
  end.

(** The text of a prediction. *)
Definition prediction_text (p : prediction) : string :=
  match p with Bare s | Scored s _ => s end.

(** A string without leading or trailing whitespace. *)
Definition is_trimmed (s : string) : bool :=
  match list_ascii_of_string s with
  | [] => true
  | c :: l => negb (py_isspace c) && negb (py_isspace (last l c))
  end.

(** If the selector returns, every text it returns is trimmed. *)
Definition all_trimmed (r : result (list prediction)) : Prop :=
  forall predictions, r = Ok predictions ->
                      Forall (fun p => is_trimmed (prediction_text p) = true) predictions.

(** Index [i] is outside an array of [n] entries. *)
Definition out_of_bounds (n : nat) (i : Z) : Prop :=
  i < - Z.of_nat n \/ Z.of_nat n <= i.

(** A result that is a value or an [IndexError]. *)
Definition ok_or_index_error {A} (r : result A) : Prop :=
  match r with Ok _ => True | Raise e => e = IndexError end.

(* ------------------------------------------------------------------ *)
(** ** The training loop step by step *)
Definition is_torch_save (e : event) : bool :=
  match e with TorchSave _ => true | _ => false end.

Definition is_loss_log (e : event) : bool :=
  match e with LogInfo (MsgTrainLoss _ _ _) => true | _ => false end.

(** The state in which [do_train] enters its loops. *)
Definition initial_state {W : Type} `{Torch W} (self : Self) (w : W) (data : Data)
           (num_training_steps : Z) : train_state :=
  {| global_step := 0; train_losses := []; stop_training := false; weights := w;
     trace := [LogInfo (MsgTraining (n_trainable_params w) (data_len data)
                                    num_training_steps (n_gpu self))] |}.

(** A checkpoint event is legitimate: written by the primary process, at a
    multiple of [save_period], for a step that has been run. *)
Definition save_allowed {W : Type} (self : Self) (save_period : Z) (st : @train_state W)
           (e : event) : Prop :=
  match e with
  | TorchSave step =>
      local_rank self <= 0 /\ step mod save_period = 0 /\ 0 < step <= global_step st
  | _ => True
  end.

(** What a successful [save(step)] does. *)
Definition saved_events (self : Self) (step : Z) : list event :=
  if local_rank self <=? 0 then [TorchSave step; LogInfo (MsgSaving step)] else [].

(** The packages and the directory a run needs are there: apex when [fp16]
    is set, and an output directory on the primary process. *)
Definition can_backward (self : Self) (env : Env) : Prop :=
  fp16 self = false \/ apex_importable env = true.

Definition can_save (self : Self) : Prop :=
  0 < local_rank self \/ out_dir self <> None.

Section StepResults.
Context {W : Type} `{Torch W} `{Numpy}.
Variable self : Self.
Variables save_period log_period gradient_accumulation_steps : Z.
Variable max_grad_norm : float.

(** The state after a batch whose loss is NaN. *)
Definition after_nan (st : train_state) (batch : Batch) : train_state :=
  {| global_step := global_step st + 1; train_losses := train_losses st;
     stop_training := true; weights := weights st;
     trace := trace st ++ [PrintStop (batch_loss (weights st) batch)] |}.

(** The state after a batch whose loss is a number, when no period is zero
    and neither the backward pass nor [save] raises. *)
Definition after_number (st : train_state) (batch : Batch) : train_state :=
  let loss := batch_loss (weights st) batch in
  let g := global_step st + 1 in
  let w := backward (fp16 self) (weights st) loss in
  {| global_step := g;
     train_losses := if g mod log_period =? 0 then [] else train_losses st ++ [loss];
     stop_training := stop_training st;
     weights := if g mod gradient_accumulation_steps =? 0
                then fst (apply_update self max_grad_norm w) else w;
     trace := trace st ++ Backward (fp16 self)
                :: (if g mod gradient_accumulation_steps =? 0
                    then update_events self max_grad_norm else [])
                ++ (if g mod log_period =? 0
                    then [LogInfo (MsgTrainLoss (local_rank self) g
                                                (np_mean (train_losses st ++ [loss])))]
                    else [])
                ++ (if g mod save_period =? 0 then saved_events self g else []) |}.
End StepResults.

(* ------------------------------------------------------------------ *)
(** ** Checkpoints: [save] in full *)

(** [s[n:]] *)
Fixpoint string_drop (n : nat) (s : string) : string :=
  match n, s with
  | O, _ => s
  | S n', String _ s' => string_drop n' s'
  | S _, EmptyString => EmptyString
  end.

(** [key[7:] if key.startswith("module.") else key] *)
Definition saved_key (key : string) : string :=
  if String.prefix "module." key then string_drop 7 key else key.

(** A Python dict: keys in order of first insertion, [d[k] = v] overwrites
    the value of a key that is already there. *)
Fixpoint dict_set {V} (d : list (string * V)) (k : string) (v : V) : list (string * V) :=
  match d with
  | [] => [(k, v)]
  | (k', v') :: d' =>
      if String.eqb k' k then (k', v) :: d' else (k', v') :: dict_set d' k v
  end.

Fixpoint dict_get {V} (d : list (string * V)) (k : string) : option V :=
  match d with
  | [] => None
  | (k', v) :: d' => if String.eqb k' k then Some v else dict_get d' k
  end.

(** The dict comprehension of [save] over [self.model.state_dict().items()]. *)
Definition model_state_dict {V} (state_dict : list (string * V)) : list (string * V) :=
  fold_left (fun d kv => dict_set d (saved_key (fst kv)) (snd kv)) state_dict [].

(** ["{}".format(step)] for an integer. *)
Definition format_int (z : Z) : string := NilZero.string_of_int (Z.to_int z).

Definition ends_with_slash (s : string) : bool :=
  match rev (list_ascii_of_string s) with
  | c :: _ => Ascii.eqb c "/"
  | [] => false
  end.

(** [os.path.join(a, b)] on POSIX. *)
Definition path_join (a b : string) : string :=
  if String.prefix "/" b then b
  else if String.eqb a "" || ends_with_slash a then a ++ b
  else a ++ "/" ++ b.

(** [os.path.join(self.out_dir, "model-{}.pt".format(step))] *)
Definition checkpoint_path (out_dir : string) (step : Z) : string :=
  path_join out_dir ("model-" ++ format_int step ++ ".pt").

Inductive save_outcome (V : Type) :=
| NotPrimary
| Written (path : string) (contents : list (string * V)) (log : log_msg)
| NoOutDir.
Arguments NotPrimary {V}.
Arguments Written {V} path contents log.
Arguments NoOutDir {V}.

(** [save(step)]: what is written where; [os.path.join(None, ...)] is a
    [TypeError]. *)
Definition save_checkpoint {V} (local_rank : Z) (out_dir : option string)
           (state_dict : list (string * V)) (step : Z) : save_outcome V :=
  if local_rank <=? 0 then
    let model_state_dict := model_state_dict state_dict in
    match out_dir with
    | Some out_dir => Written (checkpoint_path out_dir step) model_state_dict (MsgSaving step)
    | None => NoOutDir
    end
  else NotPrimary.

(** The value the last parameter named [k] (after stripping) holds. *)
Definition last_value {V} (state_dict : list (string * V)) (k : string) : option V :=
  match filter (fun kv => String.eqb (saved_key (fst kv)) k) (rev state_dict) with
  | kv :: _ => Some (snd kv)
  | [] => None
  end.

(* ------------------------------------------------------------------ *)
(** ** Construction, loading and wrapping: [__init__], [load], [parallel] *)

(** What [__init__] asks the machine. *)
Record Machine := {
  (** [torch.cuda.is_available()] *)
  cuda_is_available : bool;
  (** [torch.cuda.device_count()] *)
  cuda_device_count : Z;
  (** [os.environ.get(name)] *)
  environ : string -> option string;
  (** [int(s)]; [None] stands for [ValueError] *)
  parse_int : string -> option Z
}.

Inductive device := DeviceCpu | DeviceCuda | DeviceCudaIndex (index : Z).

Inductive setup_event :=
| CudaSetDevice (index : Z)
| InitProcessGroup (backend : string)
| LogSetup (local_rank world_size : Z).

Inductive loader_class := LlamaForCausalLM | AutoModelForCausalLM.

(** A model obtained by [from_pretrained(path, ..., device_map='auto')]. *)
Record loaded_model := {
  loader : loader_class;
  pretrained_path : string;
  trust_remote_code : bool
}.

Inductive wrapper := DataParallel | DistributedDataParallel (device_id : Z).

(** The attributes of a [MetaICLModel]; [o_wrappers] lists the parallel
    wrappers put around [self.model], outermost first. *)
Record Object := {
  o_out_dir : option string;
  o_fp16 : bool;
  o_local_rank : Z;
  (** [self.args.model_name], when [args] is given *)
  o_args : option string;
  o_n_gpu : Z;
  o_device : device;
  o_model_name : option string;
  o_model : option loaded_model;
  o_wrappers : list wrapper;
  o_mode : option string
}.

Inductive init_outcome :=
| InitOk (obj : Object) (events : list setup_event)
| InitValueError (events : list setup_event).

(** [int(os.environ.get("WORLD_SIZE", os.environ.get("SLURM_NTASKS", 1)))] *)
Definition world_size (m : Machine) : option Z :=
  match environ m "WORLD_SIZE" with
  | Some s => parse_int m s
  | None =>
      match environ m "SLURM_NTASKS" with
      | Some s => parse_int m s
      | None => Some 1
      end
  end.

Definition init (m : Machine) (out_dir : option string) (fp16 : bool) (local_rank : Z)
           (args : option string) : init_outcome :=
  let finish n_gpu device ws events :=
    InitOk {| o_out_dir := out_dir; o_fp16 := fp16; o_local_rank := local_rank;
              o_args := args; o_n_gpu := n_gpu; o_device := device;
              o_model_name := None; o_model := None; o_wrappers := []; o_mode := None |}
           (events ++ if local_rank <=? 0 then [LogSetup local_rank ws] else []) in
  if local_rank =? -1 then
    finish (cuda_device_count m) (if cuda_is_available m then DeviceCuda else DeviceCpu) 1 []
  else
    match world_size m with
    | None => InitValueError [CudaSetDevice local_rank]
    | Some ws =>
        finish 1 (DeviceCudaIndex local_rank) ws
               [CudaSetDevice local_rank; InitProcessGroup "nccl"]
    end.

(** [parallel] *)
Definition parallel (obj : Object) : Object :=
  let wrappers := if 1 <? o_n_gpu obj then DataParallel :: o_wrappers obj else o_wrappers obj in
  let wrappers := if negb (o_local_rank obj =? -1)
                  then DistributedDataParallel (o_local_rank obj) :: wrappers
                  else wrappers in
  {| o_out_dir := o_out_dir obj; o_fp16 := o_fp16 obj; o_local_rank := o_local_rank obj;
     o_args := o_args obj; o_n_gpu := o_n_gpu obj; o_device := o_device obj;
     o_model_name := o_model_name obj; o_model := o_model obj; o_wrappers := wrappers;
     o_mode := o_mode obj |}.

Inductive load_outcome :=
| LoadOk (obj : Object)
(** [args] is [None]: [self.args.model_name] is an [AttributeError] *)
| LoadAttributeError (obj : Object)
(** no branch bound [model]: [self.model = model] is an [UnboundLocalError] *)
| LoadUnboundLocalError (obj : Object).

Definition with_model (obj : Object) (model_name : option string) (model : option loaded_model)
  : Object :=
  {| o_out_dir := o_out_dir obj; o_fp16 := o_fp16 obj; o_local_rank := o_local_rank obj;
     o_args := o_args obj; o_n_gpu := o_n_gpu obj; o_device := o_device obj;
     o_model_name := model_name; o_model := model; o_wrappers := o_wrappers obj;
     o_mode := o_mode obj |}.

(** The model families [load] knows, in the order it tests them. *)
Definition families : list string :=
  ["llama"%string; "falcon"%string; "mosaic"%string; "gpt"%string].

Definition gpt_paths : list string :=
  ["models/gpt-neo-1.3B"%string; "EleutherAI/gpt-neo-2.7B"%string;
   "EleutherAI/gpt-neox-20b"%string; "models/gpt-j-6B"%string].

Definition load (obj : Object) : load_outcome :=
  match o_args obj with
  | None => LoadAttributeError obj
  | Some name =>
      let prefix := ""%string in
      let done cls model_name trust :=
        LoadOk (with_model obj (Some (prefix ++ model_name)%string)
                           (Some {| loader := cls; pretrained_path := (prefix ++ model_name)%string;
                                    trust_remote_code := trust |})) in
      if contains "llama" name then
        done LlamaForCausalLM
             (if contains "7B" name then "models/llama-7b-hf"%string
              else if contains "13B" name then "/home/ubuntu/llama_models/13B_hf"%string
              else name) false
      else if contains "falcon" name then
        done AutoModelForCausalLM
             (if contains "7B" name then "tiiuae/falcon-7b"%string
              else if contains "40B" name then "tiiuae/falcon-40b"%string
              else name) true
      else if contains "mosaic" name then
        done AutoModelForCausalLM
             (if contains "7B" name then "mosaicml/mpt-7b"%string else name) true
      else if contains "gpt" name then
        done AutoModelForCausalLM
             (if String.eqb name "gpt-neo-1.3B" then "models/gpt-neo-1.3B"%string
              else if String.eqb name "gpt-neo2" then "EleutherAI/gpt-neo-2.7B"%string
              else if String.eqb name "gpt-neox" then "EleutherAI/gpt-neox-20b"%string
              else "models/gpt-j-6B"%string) false
      else LoadUnboundLocalError (with_model obj (Some (prefix ++ name)%string) (o_model obj))
  end.

(* ------------------------------------------------------------------ *)
(** ** More examples *)

(** The steps of the checkpoints written in a trace, in order. *)
Definition saved_steps (tr : list event) : list Z :=
  flat_map (fun e => match e with TorchSave step => [step] | _ => [] end) tr.



(** A run whose every third batch has a NaN loss. *)
Definition nan_every_third : Data :=
  training_data [scored_batch; scored_batch; unscored_batch; scored_batch].

(** A second stand-in for the language model, in which token 0 is impossible:
    its cross entropy is infinite. *)
Definition impossible_token_torch : Torch unit :=
  {| forward := fun _ ids _ => map (map (fun _ => repeat fzero 8)) ids;
     n_trainable_params := fun _ => 3;
     cross_entropy := fun _ target => if target =? 0 then S754_infinity false
                                      else of_int binary32 target;
     torch_sum := fsum binary32;
     torch_mean := fmean binary32;
     backward := fun _ w _ => w;
     clip_grad_norm_ := fun w _ => w;
     optimizer_step := fun w => w;
     scheduler_step := fun w => w;
     zero_grad := fun w => w |}.

(** [three_options] with an index beyond the four losses. *)
Definition index_beyond_losses : Data :=
  {| get_dataloader := fun _ _ _ _ => [four_items];
     data_len := 4;
     metadata := [ {| options := [" apple"%string; "banana "%string; "cherry"%string];
                      indices := [[0]; [1]; [2; 7]] |} ] |}.

(** An example without options. *)
Definition no_options : Data :=
  {| get_dataloader := fun _ _ _ _ => [four_items];
     data_len := 4;
     metadata := [ {| options := []; indices := [] |} ] |}.

(** [three_options] announcing five items instead of four. *)
Definition wrong_length : Data :=
  {| get_dataloader := fun _ _ _ _ => [four_items];
     data_len := 5;
     metadata := metadata three_options |}.

(** Two GPUs, no distributed environment. *)
Definition two_gpus : Machine :=
  {| cuda_is_available := true; cuda_device_count := 2;
     environ := fun _ => None; parse_int := fun _ => None |}.

(* ================================================================== *)
(** * Properties *)

(* ------------------------------------------------------------------ *)
(** ** Lists and tensors *)

Lemma map2_length {A B C} (f : A -> B -> C) (l1 : list A) (l2 : list B) :
  length (map2 f l1 l2) = Nat.min (length l1) (length l2).
Proof.
  revert l2; induction l1 as [|a l1 IH]; intros [|b l2]; simpl; auto.
Qed.

Lemma map2_app {A B C} (f : A -> B -> C) (l1 l1' : list A) (l2 l2' : list B) :
  length l1 = length l2 ->
  map2 f (l1 ++ l1') (l2 ++ l2') = map2 f l1 l2 ++ map2 f l1' l2'.
Proof.
  revert l2; induction l1 as [|a l1 IH]; intros [|b l2] Hlen; simpl in *;
    try discriminate; auto.
  f_equal; apply IH; lia.
Qed.

Lemma map2_concat {A B C} (f : A -> B -> C) (t1 : tensor2 A) (t2 : tensor2 B) :
  Forall2 (fun r1 r2 => length r1 = length r2) t1 t2 ->
  map2 f (concat t1) (concat t2) = concat (map2 (map2 f) t1 t2).
Proof.
  induction 1 as [|r1 r2 t1 t2 Hr _ IH]; simpl; auto.
  rewrite map2_app, IH; auto.
Qed.

Lemma view2_concat {A} (cols : nat) (t : tensor2 A) :
  Forall (fun r => length r = cols) t ->
  view2 (length t) cols (concat t) = t.
Proof.
  induction 1 as [|r t Hr _ IH]; simpl; auto.
  rewrite firstn_app, skipn_app, Hr, Nat.sub_diag; simpl.
  rewrite firstn_all2, skipn_all2 by lia.
  rewrite app_nil_r; simpl; now rewrite IH.
Qed.

Lemma shape2_Forall2 {A B} (b len : nat) (t1 : tensor2 A) (t2 : tensor2 B) :
  shape2 b len t1 -> shape2 b len t2 ->
  Forall2 (fun r1 r2 => length r1 = length r2) t1 t2.
Proof.
  intros [Hb1 H1] [Hb2 H2]; subst b; revert t2 Hb2 H2.
  induction H1 as [|r1 t1 Hr1 _ IH]; intros [|r2 t2] Hb2 H2; simpl in *;
    try discriminate; constructor.
  - inversion H2; congruence.
  - apply IH; [lia | now inversion H2].
Qed.

Lemma shape2_drop_last {A} (b len : nat) (t : tensor2 A) :
  shape2 b len t -> shape2 b (Nat.pred len) (drop_last t).
Proof.
  intros [Hb Hr]; split; unfold drop_last.
  - now rewrite length_map.
  - apply Forall_map; eapply Forall_impl; [|exact Hr].
    intros r Hlen; simpl in *; rewrite removelast_firstn_len, length_firstn; lia.
Qed.

Lemma shape2_drop_first {A} (b len : nat) (t : tensor2 A) :
  shape2 b len t -> shape2 b (Nat.pred len) (drop_first t).
Proof.
  intros [Hb Hr]; split; unfold drop_first.
  - now rewrite length_map.
  - apply Forall_map; eapply Forall_impl; [|exact Hr].
    intros [|x r] Hlen; simpl in *; lia.
Qed.

Lemma shape2_map2 {A B C} (f : A -> B -> C) (b len : nat) (t1 : tensor2 A) (t2 : tensor2 B) :
  shape2 b len t1 -> shape2 b len t2 -> shape2 b len (map2 (map2 f) t1 t2).
Proof.
  intros [Hb1 H1] [Hb2 H2]; subst b; revert t2 Hb2 H2.
  induction H1 as [|r1 t1 Hr1 _ IH]; intros [|r2 t2] Hb2 H2; simpl in *;
    try discriminate; [split; auto|].
  inversion H2; subst.
  destruct (IH t2) as [Hl Hf]; [lia | assumption |].
  split; simpl; [lia|].
  constructor; [rewrite map2_length; lia | assumption].
Qed.

Lemma shape2_size1 {A} (b len : nat) (t : tensor2 A) :
  shape2 b len t -> t <> [] -> size1 t = len.
Proof.
  intros [_ Hr] Hne; destruct t as [|r t]; [congruence|].
  now inversion Hr.
Qed.

(* ------------------------------------------------------------------ *)
(** ** The scorer computes the per-example formula *)

Section ScorerFacts.
Context {W : Type} `{Torch W}.

(** Once the flat losses are viewed back as [batch x length], the scorer
    works example by example. *)
Lemma rowwise_scores (out : tensor2 (list float)) (tg tt : tensor2 Z) :
  map2 (fun s n => fdiv binary32 s (of_int binary32 n))
       (map torch_sum
            (mul_mask (map2 (map2 cross_entropy) (drop_last out) (drop_first tg))
                      (drop_first tt)))
       (map isum (drop_first tt))
  = map3 score_by_sum out tg tt.
Proof.
  revert tg tt; induction out as [|o out IH]; intros [|g tg] [|m tt]; simpl; auto.
  f_equal; apply IH.
Qed.

Lemma run_model_rowwise (b len : nat) (w : W) (ids am tt : tensor2 Z)
      (lbl : option (tensor2 Z)) :
  batch_shape b len w ids am tt lbl ->
  run_model w ids am tt lbl = spec_scores_by_sum w ids am tt lbl.
Proof.
  intros (Hids & Htt & Htg & Hout).
  unfold run_model, spec_scores_by_sum, loss_fct, view_flat.
  fold (targets_of ids lbl).
  pose proof (shape2_drop_last _ _ _ Hout) as Hlog.
  pose proof (shape2_drop_first _ _ _ Htg) as Hlab.
  rewrite map2_concat by (eapply shape2_Forall2; eassumption).
  pose proof (shape2_map2 cross_entropy _ _ _ _ Hlog Hlab) as Hce.
  assert (Hview : view2 (size0 (drop_last (forward w ids am)))
                        (size1 (drop_last (forward w ids am)))
                        (concat (map2 (map2 cross_entropy)
                                      (drop_last (forward w ids am))
                                      (drop_first (targets_of ids lbl))))
                  = map2 (map2 cross_entropy) (drop_last (forward w ids am))
                         (drop_first (targets_of ids lbl))).
  { destruct (drop_last (forward w ids am)) as [|r t] eqn:E.
    - reflexivity.
    - rewrite <- E in *.
      rewrite (shape2_size1 _ _ _ Hlog) by (rewrite E; discriminate).
      unfold size0. destruct Hlog as [Hb _], Hce as [Hb' Hrows].
      rewrite Hb, <- Hb'. now apply view2_concat. }
  rewrite Hview. apply rowwise_scores.
Qed.
End ScorerFacts.

(* ------------------------------------------------------------------ *)
(** ** IEEE-754 facts: where NaN comes from *)

Lemma of_int_zero f : of_int f 0 = S754_zero false.
Proof. reflexivity. Qed.

Lemma fmul_zero_r f x s : zero_or_nan (fmul f x (S754_zero s)) = true.
Proof. destruct x; reflexivity. Qed.

Lemma fadd_zero_or_nan f x y :
  zero_or_nan x = true -> zero_or_nan y = true -> zero_or_nan (fadd f x y) = true.
Proof.
  destruct x as [[]|[]| |]; destruct y as [[]|[]| |]; simpl; try discriminate; reflexivity.
Qed.

Lemma fsum_zero_or_nan f l :
  Forall (fun x => zero_or_nan x = true) l -> zero_or_nan (fsum f l) = true.
Proof.
  unfold fsum. assert (Hz : zero_or_nan fzero = true) by reflexivity.
  revert Hz; generalize fzero.
  induction l as [|x l IH]; intros acc Hacc Hl; simpl; auto.
  inversion Hl; subst. apply IH; auto. now apply fadd_zero_or_nan.
Qed.

Lemma fdiv_zero_or_nan_zero f x s :
  zero_or_nan x = true -> fdiv f x (S754_zero s) = S754_nan.
Proof. destruct x; simpl; try discriminate; reflexivity. Qed.

(** The mantissa stays non-negative through the rounding shifts. *)
Lemma shr_1_nonneg mrs : 0 <= shr_m mrs -> 0 <= shr_m (shr_1 mrs).
Proof.
  destruct mrs as [m r s]; simpl. destruct m as [|[p|p|]|p]; simpl; lia.
Qed.

Lemma iter_pos_inv {A} (P : A -> Prop) (f : A -> A) :
  (forall x, P x -> P (f x)) -> forall n x, P x -> P (iter_pos f n x).
Proof.
  intros Hf; induction n as [n IH|n IH|]; intros x Hx; simpl; auto.
Qed.

Lemma shr_nonneg mrs e n : 0 <= shr_m mrs -> 0 <= shr_m (fst (shr mrs e n)).
Proof.
  intros Hm; destruct n; simpl; auto.
  apply (iter_pos_inv (fun r => 0 <= shr_m r)); auto using shr_1_nonneg.
Qed.

Lemma shr_record_of_loc_m m l : shr_m (shr_record_of_loc m l) = m.
Proof. destruct l as [|[]]; reflexivity. Qed.

Lemma shr_fexp_nonneg p em m e l : 0 <= m -> 0 <= shr_m (fst (shr_fexp p em m e l)).
Proof.
  intros Hm; unfold shr_fexp; apply shr_nonneg; now rewrite shr_record_of_loc_m.
Qed.

Lemma round_nearest_even_nonneg m l : 0 <= m -> 0 <= round_nearest_even m l.
Proof. intros Hm; destruct l as [|[]]; simpl; try lia. destruct (Z.even m); lia. Qed.

Lemma binary_round_aux_not_nan p em sx mx ex lx :
  0 <= mx -> is_nan (binary_round_aux p em sx mx ex lx) = false.
Proof.
  intros Hm; unfold binary_round_aux.
  pose proof (shr_fexp_nonneg p em mx ex lx Hm) as H1.
  destruct (shr_fexp p em mx ex lx) as [mrs' e']; simpl in H1.
  pose proof (shr_fexp_nonneg p em _ e' loc_Exact
                (round_nearest_even_nonneg _ (loc_of_shr_record mrs') H1)) as H2.
  destruct (shr_fexp p em (round_nearest_even (shr_m mrs') (loc_of_shr_record mrs')) e' loc_Exact)
    as [mrs'' e'']; simpl in H2.
  destruct (shr_m mrs''); try lia; auto.
  destruct (e'' <=? em - p); reflexivity.
Qed.

Lemma fdiv_finite_not_nan f x s m e :
  is_nan (fdiv f x (S754_finite s m e)) = is_nan x.
Proof.
  destruct x as [sx|sx| |sx mx ex]; try reflexivity.
  unfold fdiv, SFdiv.
  destruct (SFdiv_core_binary (prec f) (emax f) (Z.pos mx) ex (Z.pos m) e) as [[mz ez] lz] eqn:E.
  simpl. apply binary_round_aux_not_nan.
  unfold SFdiv_core_binary in E.
  set (m' := match _ - _ - _ with Z0 => _ | Zpos _ => _ | Zneg _ => _ end) in E.
  assert (0 <= m').
  { subst m'. destruct (_ - _ - _); try lia. apply Z.shiftl_nonneg. lia. }
  pose proof (Z_div_mod m' (Z.pos m) eq_refl) as Hd.
  destruct (Z.div_eucl m' (Z.pos m)) as [q r]. inversion E; subst. nia.
Qed.

(** *** Conversion of a nonzero 64-bit integer to binary32 is finite *)

Lemma digits2_pos_bounds p :
  2 ^ (Z.pos (digits2_pos p) - 1) <= Z.pos p < 2 ^ Z.pos (digits2_pos p).
Proof.
  induction p as [p IH|p IH|]; simpl digits2_pos.
  - rewrite Pos2Z.inj_succ. replace (Z.succ (Z.pos (digits2_pos p)) - 1) with (Z.pos (digits2_pos p)) by lia.
    rewrite Z.pow_succ_r by lia.
    replace (Z.pos (digits2_pos p)) with (Z.succ (Z.pos (digits2_pos p) - 1)) at 1 by lia.
    rewrite Z.pow_succ_r by lia. lia.
  - rewrite Pos2Z.inj_succ. replace (Z.succ (Z.pos (digits2_pos p)) - 1) with (Z.pos (digits2_pos p)) by lia.
    rewrite Z.pow_succ_r by lia.
    replace (Z.pos (digits2_pos p)) with (Z.succ (Z.pos (digits2_pos p) - 1)) at 1 by lia.
    rewrite Z.pow_succ_r by lia. lia.
  - simpl. lia.
Qed.

Lemma digits2_pos_unique p d :
  2 ^ (d - 1) <= Z.pos p < 2 ^ d -> Z.pos (digits2_pos p) = d.
Proof.
  intros [Hlo Hhi]. pose proof (digits2_pos_bounds p) as [Hlo' Hhi'].
  assert (0 < d).
  { destruct (Z.ltb_spec 0 d); auto.
    destruct (Z.eqb_spec d 0); [subst; simpl in Hhi; lia|].
    rewrite (Z.pow_neg_r 2 d) in Hhi by lia. lia. }
  destruct (Z.lt_trichotomy (Z.pos (digits2_pos p)) d) as [Hlt|[Heq|Hgt]]; auto; exfalso.
  - assert (2 ^ Z.pos (digits2_pos p) <= 2 ^ (d - 1)) by (apply Z.pow_le_mono_r; lia). lia.
  - assert (2 ^ d <= 2 ^ (Z.pos (digits2_pos p) - 1)) by (apply Z.pow_le_mono_r; lia). lia.
Qed.

Lemma digits2_pos_xO_iter q n :
  Z.pos (digits2_pos (Pos.iter xO q n)) = Z.pos (digits2_pos q) + Z.pos n.
Proof.
  rewrite Pos2Nat.inj_iter.
  rewrite <- (positive_nat_Z n).
  induction (Pos.to_nat n) as [|k IH]; simpl nat_rect.
  - simpl. lia.
  - simpl digits2_pos. rewrite Pos2Z.inj_succ, IH. lia.
Qed.

Lemma iter_pos_nat {A} (f : A -> A) n x :
  iter_pos f n x = Nat.iter (Pos.to_nat n) f x.
Proof.
  revert x; induction n as [n IH|n IH|]; intros x; simpl iter_pos.
  - rewrite !IH, Pos2Nat.inj_xI.
    replace (S (2 * Pos.to_nat n)) with (Pos.to_nat n + S (Pos.to_nat n))%nat by lia.
    rewrite Nat.iter_add. f_equal. now rewrite Nat.iter_succ_r.
  - rewrite !IH, Pos2Nat.inj_xO.
    replace (2 * Pos.to_nat n)%nat with (Pos.to_nat n + Pos.to_nat n)%nat by lia.
    now rewrite Nat.iter_add.
  - reflexivity.
Qed.

Lemma shr_1_digits q r s :
  2 <= Z.pos (digits2_pos q) ->
  exists q' r' s', shr_1 (Build_shr_record (Z.pos q) r s) = Build_shr_record (Z.pos q') r' s'
                   /\ Z.pos (digits2_pos q') = Z.pos (digits2_pos q) - 1.
Proof.
  intros Hd; destruct q as [q|q|].
  - exists q, true, (r || s)%bool; split; [reflexivity|].
    simpl digits2_pos; rewrite Pos2Z.inj_succ; lia.
  - exists q, false, (r || s)%bool; split; [reflexivity|].
    simpl digits2_pos; rewrite Pos2Z.inj_succ; lia.
  - simpl in Hd; lia.
Qed.

Lemma shr_iter_digits (k : nat) q r s :
  Z.of_nat k < Z.pos (digits2_pos q) ->
  exists q' r' s', Nat.iter k shr_1 (Build_shr_record (Z.pos q) r s) = Build_shr_record (Z.pos q') r' s'
                   /\ Z.pos (digits2_pos q') = Z.pos (digits2_pos q) - Z.of_nat k.
Proof.
  induction k as [|k IH]; intros Hk.
  - exists q, r, s; split; [reflexivity|lia].
  - destruct IH as (q' & r' & s' & E & Hd); [lia|].
    simpl Nat.iter. rewrite E.
    destruct (shr_1_digits q' r' s') as (q'' & r'' & s'' & E' & Hd'); [lia|].
    exists q'', r'', s''; split; [exact E'|lia].
Qed.

(** One rounding shift in binary32. *)
Lemma shr_fexp32_pos q e l :
  -149 < e + Z.pos (digits2_pos q) ->
  let n := Z.max (Z.max (Z.pos (digits2_pos q) + e - 24) (-149) - e) 0 in
  exists q' r' s',
    shr_fexp 24 128 (Z.pos q) e l = (Build_shr_record (Z.pos q') r' s', e + n)
    /\ Z.pos (digits2_pos q') = Z.pos (digits2_pos q) - n.
Proof.
  intros He n. unfold shr_fexp, fexp, emin. simpl Zdigits2.
  set (d := Z.pos (digits2_pos q)) in *.
  assert (Hrec : exists r s, shr_record_of_loc (Z.pos q) l = Build_shr_record (Z.pos q) r s).
  { destruct l as [|[]]; simpl; eauto. }
  destruct Hrec as (r & s & ->).
  change (3 - 128 - 24) with (-149).
  remember (Z.max (d + e - 24) (-149) - e) as k eqn:Ek.
  destruct k as [|k|k]; unfold shr.
  - exists q, r, s. fold d. split; [f_equal|]; lia.
  - rewrite iter_pos_nat.
    destruct (shr_iter_digits (Pos.to_nat k) q r s) as (q' & r' & s' & E & Hd).
    { rewrite positive_nat_Z. fold d. lia. }
    rewrite E. exists q', r', s'. rewrite positive_nat_Z in Hd. fold d in Hd |- *.
    split; [f_equal|]; lia.
  - exists q, r, s. fold d. split; [f_equal|]; lia.
Qed.

Lemma round_nearest_even_pos q l :
  exists q', round_nearest_even (Z.pos q) l = Z.pos q'
             /\ Z.pos (digits2_pos q) <= Z.pos (digits2_pos q') <= Z.pos (digits2_pos q) + 1.
Proof.
  assert (Hsucc : Z.pos (digits2_pos q) <= Z.pos (digits2_pos (q + 1))
                  <= Z.pos (digits2_pos q) + 1).
  { pose proof (digits2_pos_bounds q) as [Hlo Hhi].
    set (d := Z.pos (digits2_pos q)) in *.
    destruct (Z.eq_dec (Z.pos q + 1) (2 ^ d)) as [E|E].
    - rewrite (digits2_pos_unique (q + 1) (d + 1)); [lia|].
      rewrite Pos2Z.inj_add, Z.add_simpl_r, Z.pow_add_r by (subst d; lia).
      change (2 ^ 1) with 2. lia.
    - rewrite (digits2_pos_unique (q + 1) d); [lia|].
      rewrite Pos2Z.inj_add. lia. }
  destruct l as [|[]]; unfold round_nearest_even.
  - exists q; split; [reflexivity|lia].
  - destruct (Z.even (Z.pos q)).
    + exists q; split; [reflexivity|lia].
    + exists (q + 1)%positive; split; [reflexivity|exact Hsucc].
  - exists q; split; [reflexivity|lia].
  - exists (q + 1)%positive; split; [reflexivity|exact Hsucc].
Qed.

Lemma binary_round_aux32_finite s q e l :
  -149 < e + Z.pos (digits2_pos q) ->
  e + Z.pos (digits2_pos q) <= 127 ->
  e <= Z.max (Z.pos (digits2_pos q) + e - 24) (-149) ->
  is_finite_nonzero (binary_round_aux 24 128 s (Z.pos q) e l) = true.
Proof.
  intros Hlo Hhi Hal. unfold binary_round_aux.
  destruct (shr_fexp32_pos q e l Hlo) as (q1 & r1 & s1 & E1 & Hd1).
  rewrite E1. simpl shr_m.
  destruct (round_nearest_even_pos q1 (loc_of_shr_record (Build_shr_record (Z.pos q1) r1 s1)))
    as (q2 & E2 & Hd2).
  rewrite E2.
  match goal with |- context [shr_fexp 24 128 (Z.pos q2) ?e1 loc_Exact] =>
    destruct (shr_fexp32_pos q2 e1 loc_Exact) as (q3 & r3 & s3 & E3 & Hd3); [lia|];
    rewrite E3 end.
  simpl shr_m. cbv zeta in *.
  match goal with |- context [Z.leb ?a ?b] => destruct (Z.leb_spec a b) as [Hle|Hgt] end.
  - reflexivity.
  - exfalso. lia.
Qed.

Lemma of_int32_finite z :
  z <> 0 -> Z.abs z < 2 ^ 100 -> is_finite_nonzero (of_int binary32 z) = true.
Proof.
  intros Hz Hb. unfold of_int, binary_normalize, binary32; simpl prec; simpl emax.
  assert (Hround : forall s p, Z.pos p < 2 ^ 100 ->
                     is_finite_nonzero (binary_round 24 128 s p 0) = true).
  { intros s p Hp. unfold binary_round, shl_align, fexp, emin.
    pose proof (digits2_pos_bounds p) as [Hlo Hhi].
    set (d := Z.pos (digits2_pos p)) in *.
    assert (Hd : 1 <= d <= 100).
    { split; [subst d; lia|].
      destruct (Z.le_gt_cases d 100) as [|Hgt]; auto.
      assert (2 ^ 100 <= 2 ^ (d - 1)) by (apply Z.pow_le_mono_r; lia). lia. }
    change (3 - 128 - 24) with (-149).
    remember (Z.max (d + 0 - 24) (-149) - 0) as k eqn:Ek.
    destruct k as [|k|k].
    - apply binary_round_aux32_finite; fold d; lia.
    - apply binary_round_aux32_finite; fold d; lia.
    - apply binary_round_aux32_finite; rewrite digits2_pos_xO_iter; fold d; lia. }
  destruct z as [|p|p]; [congruence| |]; apply Hround; simpl in Hb; lia.
Qed.

(* ------------------------------------------------------------------ *)
(** ** The label-mask normaliser *)

Lemma zsum_from (l : list Z) (a : Z) : fold_left Z.add l a = a + zsum l.
Proof.
  unfold zsum; revert a; induction l as [|x l IH]; intros a; simpl; [lia|].
  rewrite (IH (a + x)), (IH x); lia.
Qed.

Lemma zsum_cons (x : Z) (l : list Z) : zsum (x :: l) = x + zsum l.
Proof. unfold zsum at 1; simpl; now rewrite zsum_from. Qed.

Lemma wrap64_small (z : Z) : - 2 ^ 63 <= z < 2 ^ 63 -> wrap64 z = z.
Proof. intros Hz; unfold wrap64; rewrite Z.mod_small; lia. Qed.

Lemma wrap64_range (z : Z) : - 2 ^ 63 <= wrap64 z < 2 ^ 63.
Proof.
  unfold wrap64; pose proof (Z.mod_pos_bound (z + 2 ^ 63) (2 ^ 64) eq_refl); lia.
Qed.

Lemma zsum_binary_mask (l : list Z) :
  Forall (fun m => m = 0 \/ m = 1) l ->
  zsum l = Z.of_nat (length (filter (fun m => negb (m =? 0)) l)).
Proof.
  induction 1 as [|m l [-> | ->] _ IH]; [reflexivity| |];
    rewrite zsum_cons, IH; cbn [filter Z.eqb negb length];
    rewrite ?Nat2Z.inj_succ; lia.
Qed.

Lemma isum_binary_mask (l : list Z) :
  Forall (fun m => m = 0 \/ m = 1) l -> Z.of_nat (length l) < 2 ^ 63 ->
  isum l = Z.of_nat (length (filter (fun m => negb (m =? 0)) l)).
Proof.
  intros Hl Hlen; unfold isum; rewrite (zsum_binary_mask l Hl).
  apply wrap64_small. pose proof (filter_length_le (fun m => negb (m =? 0)) l). lia.
Qed.

Lemma isum_binary_mask_pos (l : list Z) :
  Forall (fun m => m = 0 \/ m = 1) l -> Z.of_nat (length l) < 2 ^ 63 ->
  In 1 l -> isum l <> 0.
Proof.
  intros Hl Hlen Hin; rewrite isum_binary_mask by assumption.
  assert (Hf : In 1 (filter (fun m => negb (m =? 0)) l)) by (apply filter_In; auto).
  destruct (filter _ l); [contradiction | simpl; lia].
Qed.

Lemma isum_all_zero (l : list Z) : Forall (fun m => m = 0) l -> isum l = 0.
Proof.
  intros Hl; unfold isum.
  assert (zsum l = 0) as ->; [|reflexivity].
  induction Hl as [|m l -> _ IH]; [reflexivity | now rewrite zsum_cons, IH].
Qed.

Lemma map2_mask_zero_or_nan (losses : list float) (mask : list Z) :
  Forall (fun m => m = 0) mask ->
  Forall (fun x => zero_or_nan x = true)
         (map2 (fun l m => fmul binary32 l (of_int binary32 m)) losses mask).
Proof.
  intros Hm; revert losses; induction Hm as [|m mask -> _ IH]; intros [|x losses];
    simpl; constructor; auto.
  apply fmul_zero_r.
Qed.

Lemma map3_length {A B C D} (f : A -> B -> C -> D) l1 l2 l3 :
  length (map3 f l1 l2 l3) = Nat.min (length l1) (Nat.min (length l2) (length l3)).
Proof.
  revert l2 l3; induction l1 as [|a l1 IH]; intros [|b l2] [|c l3]; simpl; auto.
Qed.

Lemma nth_error_map3 {A B C D} (f : A -> B -> C -> D) l1 l2 l3 i c :
  length l1 = length l3 -> length l2 = length l3 -> nth_error l3 i = Some c ->
  exists a b, nth_error l1 i = Some a /\ nth_error l2 i = Some b
              /\ nth_error (map3 f l1 l2 l3) i = Some (f a b c).
Proof.
  revert l2 l3 i; induction l1 as [|a l1 IH]; intros [|b l2] [|c' l3] i H1 H2 Hi;
    simpl in *; try discriminate; try (destruct i; discriminate).
  destruct i as [|i]; simpl in *.
  - inversion Hi; subst; eauto.
  - apply IH; auto.
Qed.

Lemma map3_ext_Forall {A B C D} (f g : A -> B -> C -> D) l1 l2 l3 :
  Forall (fun c => forall a b, f a b c = g a b c) l3 ->
  map3 f l1 l2 l3 = map3 g l1 l2 l3.
Proof.
  intros H3; revert l1 l2; induction H3 as [|c l3 Hc _ IH]; intros [|a l1] [|b l2];
    simpl; auto.
  now rewrite Hc, IH.
Qed.

(* ------------------------------------------------------------------ *)
(** ** Scorer: the normalised loss (C2) and the empty label mask (C9) *)

(** C2, as stated, fails: for one example whose only scored token has
    cross entropy 7.0 and carries the mask value 2, the scorer returns
    [14.0 / 2 = 7.0], whereas dividing the same masked sum by the number of
    nonzero mask tokens gives [14.0 / 1 = 14.0]. *)
Lemma run_model_divides_by_mask_sum_not_count :
  let ids := [[5; 7]] in
  let mask := [[0; 2]] in
  batch_shape 1 2 0%nat ids [[1; 1]] mask None
  /\ run_model 0%nat ids [[1; 1]] mask None = [of_int binary32 7]
  /\ spec_scores_by_count 0%nat ids [[1; 1]] mask None = [of_int binary32 14]
  /\ run_model 0%nat ids [[1; 1]] mask None <> spec_scores_by_count 0%nat ids [[1; 1]] mask None.
Proof.
  cbv zeta; repeat split; try (repeat constructor; fail); try (vm_compute; reflexivity).
  vm_compute; discriminate.
Qed.

(** C2 (amended): for every batch of [b] examples of [len] tokens, [run_model]
    returns one scalar per example: the token-level cross entropy between the
    logits without the last position and the targets (labels if given, else
    input_ids) without the first position, multiplied elementwise by the
    shifted label mask, summed per example and divided by the sum of the
    shifted label-mask entries; this divisor is the number of masked
    (nonzero) tokens whenever the mask holds only 0 and 1.  The output has
    length [b]. *)
Theorem run_model_normalized_loss {W : Type} `{Torch W} (b len : nat) (w : W)
        (ids am tt : tensor2 Z) (lbl : option (tensor2 Z)) :
  batch_shape b len w ids am tt lbl ->
  run_model w ids am tt lbl = spec_scores_by_sum w ids am tt lbl
  /\ length (run_model w ids am tt lbl) = b
  /\ (Forall (Forall (fun m => m = 0 \/ m = 1)) tt -> Z.of_nat len < 2 ^ 63 ->
      run_model w ids am tt lbl = spec_scores_by_count w ids am tt lbl).
Proof.
  intros Hshape. pose proof (run_model_rowwise b len w ids am tt lbl Hshape) as Hrow.
  destruct Hshape as (Hids & Htt & Htg & Hout).
  split; [exact Hrow|]. rewrite Hrow. split.
  - unfold spec_scores_by_sum. rewrite map3_length.
    destruct Htt as [-> _], Htg as [-> _], Hout as [-> _]. lia.
  - intros Hbin Hlen. unfold spec_scores_by_sum, spec_scores_by_count.
    apply map3_ext_Forall.
    destruct Htt as [_ Hrows].
    rewrite Forall_forall in *. intros mask Hin logits targets.
    unfold score_by_sum, score_by_count, count_masked.
    rewrite isum_binary_mask; [reflexivity| |].
    + specialize (Hbin mask Hin). destruct mask; [constructor | now inversion Hbin].
    + specialize (Hrows mask Hin). destruct mask; simpl in *; lia.
Qed.

Lemma run_model_normalized_loss_witness :
  let b := scored_batch in
  run_model 0%nat (input_ids b) (attention_mask b) (token_type_ids b) (labels b)
  = spec_scores_by_sum 0%nat (input_ids b) (attention_mask b) (token_type_ids b) (labels b)
  /\ length (run_model 0%nat (input_ids b) (attention_mask b) (token_type_ids b) (labels b)) = 1%nat
  /\ run_model 0%nat (input_ids b) (attention_mask b) (token_type_ids b) (labels b)
     = spec_scores_by_count 0%nat (input_ids b) (attention_mask b) (token_type_ids b) (labels b).
Proof.
  destruct (run_model_normalized_loss 1 2 0%nat [[5; 7]] [[1; 1]] [[0; 1]] None)
    as (Hsum & Hlen & Hcount).
  - repeat split; repeat constructor.
  - split; [exact Hsum|]. split; [exact Hlen|].
    apply Hcount; [|reflexivity].
    repeat first [apply Forall_nil | apply Forall_cons | left; reflexivity | right; reflexivity].
Defined.

(** C9, as stated, fails: an example whose label mask has a nonzero token only
    at the first position has an empty shifted mask; its summed masked loss is
    [0.0], not NaN, and the division by the zero mask sum yields NaN. *)
Lemma nonzero_first_mask_token_still_nan :
  let ids := [[5; 7]] in
  let mask := [[1; 0]] in
  batch_shape 1 2 0%nat ids [[1; 1]] mask None
  /\ Forall (Exists (fun m => m <> 0)) mask
  /\ torch_sum (masked_token_losses [repeat fzero 8; repeat fzero 8] [5; 7] [1; 0]) = fzero
  /\ run_model 0%nat ids [[1; 1]] mask None = [S754_nan].
Proof.
  cbv zeta; repeat split; try (repeat constructor; fail); try (vm_compute; reflexivity).
  repeat constructor; discriminate.
Qed.

(** C9 (amended): for every batch and every example of it, the scorer's entry
    is the summed masked loss divided by the int64 sum of the label mask after
    its first position.  If the mask is zero at every position after the first
    (in particular if it is all zero) the entry is NaN, for any [torch.sum]
    that adds zeros and NaN to a zero or NaN, as IEEE-754 addition does in any
    order.  If the mask sum is not zero (for a 0/1 mask: at least one masked
    token after the first position) the division introduces no NaN: the entry
    is NaN exactly when the summed masked loss already is. *)
Theorem run_model_nan_iff_empty_mask {W : Type} `{Torch W} (b len : nat) (w : W)
        (ids am tt : tensor2 Z) (lbl : option (tensor2 Z)) (i : nat) (mask : list Z) :
  batch_shape b len w ids am tt lbl ->
  nth_error tt i = Some mask ->
  exists logits targets,
    nth_error (forward w ids am) i = Some logits
    /\ nth_error (targets_of ids lbl) i = Some targets
    /\ nth_error (run_model w ids am tt lbl) i
       = Some (fdiv binary32 (torch_sum (masked_token_losses logits targets mask))
                    (of_int binary32 (isum (tl mask))))
    /\ (keeps_zeros (@torch_sum W _) -> Forall (fun m => m = 0) (tl mask) ->
        nth_error (run_model w ids am tt lbl) i = Some S754_nan)
    /\ (isum (tl mask) <> 0 ->
        is_nan (fdiv binary32 (torch_sum (masked_token_losses logits targets mask))
                     (of_int binary32 (isum (tl mask))))
        = is_nan (torch_sum (masked_token_losses logits targets mask)))
    /\ (Forall (fun m => m = 0 \/ m = 1) (tl mask) -> In 1 (tl mask) ->
        Z.of_nat len < 2 ^ 63 -> isum (tl mask) <> 0).
Proof.
  intros Hshape Hi.
  rewrite (run_model_rowwise b len w ids am tt lbl Hshape).
  destruct Hshape as (Hids & Htt & Htg & Hout).
  unfold spec_scores_by_sum.
  destruct (nth_error_map3 score_by_sum (forward w ids am) (targets_of ids lbl) tt i mask)
    as (logits & targets & Hl & Ht & Hs); auto.
  { destruct Hout as [-> _], Htt as [-> _]; reflexivity. }
  { destruct Htg as [-> _], Htt as [-> _]; reflexivity. }
  exists logits, targets. repeat split; auto.
  - intros Hsum Hzero. rewrite Hs. f_equal. unfold score_by_sum.
    rewrite (isum_all_zero _ Hzero), of_int_zero.
    apply fdiv_zero_or_nan_zero, Hsum.
    unfold masked_token_losses. now apply map2_mask_zero_or_nan.
  - intros Hnz.
    assert (Hfin : is_finite_nonzero (of_int binary32 (isum (tl mask))) = true).
    { apply of_int32_finite; [exact Hnz|].
      pose proof (wrap64_range (zsum (tl mask))). unfold isum. lia. }
    destruct (of_int binary32 (isum (tl mask))) as [| | |s m e]; try discriminate Hfin.
    apply fdiv_finite_not_nan.
  - intros Hbin Hin Hlen. apply isum_binary_mask_pos; auto.
    destruct Htt as [_ Hrows]. rewrite Forall_forall in Hrows.
    apply nth_error_In in Hi. specialize (Hrows _ Hi).
    destruct mask; simpl in *; lia.
Qed.

Lemma run_model_nan_iff_empty_mask_witness :
  let b := unscored_batch in
  exists logits targets,
    nth_error (forward 0%nat (input_ids b) (attention_mask b)) 0 = Some logits
    /\ nth_error (targets_of (input_ids b) (labels b)) 0 = Some targets
    /\ nth_error (run_model 0%nat (input_ids b) (attention_mask b) (token_type_ids b) (labels b)) 0
       = Some S754_nan.
Proof.
  destruct (run_model_nan_iff_empty_mask 1 2 0%nat [[5; 7]] [[1; 1]] [[0; 0]] None 0 [0; 0])
    as (logits & targets & Hl & Ht & _ & Hnan & _).
  - repeat split; repeat constructor.
  - reflexivity.
  - exists logits, targets. split; [exact Hl|]. split; [exact Ht|].
    apply Hnan; [exact (fsum_zero_or_nan binary32) | repeat constructor].
Defined.

(* ------------------------------------------------------------------ *)
(** ** The order of floats without NaN *)

Ltac split_compare :=
  repeat match goal with
         | |- context [Z.compare ?x ?y] => destruct (Z.compare_spec x y)
         | H : context [Z.compare ?x ?y] |- _ => destruct (Z.compare_spec x y)
         | |- context [Pos.compare_cont Eq ?x ?y] =>
             change (Pos.compare_cont Eq x y) with (Pos.compare x y);
             destruct (Pos.compare_spec x y)
         | H : context [Pos.compare_cont Eq ?x ?y] |- _ =>
             change (Pos.compare_cont Eq x y) with (Pos.compare x y) in H;
             destruct (Pos.compare_spec x y)
         end.

Lemma flt_asym a b : flt a b = true -> flt b a = false.
Proof.
  unfold flt, SFltb, SFcompare.
  destruct a as [[]|[]| |[] ma ea]; destruct b as [[]|[]| |[] mb eb];
    try reflexivity; try discriminate; intros Hab;
    split_compare; simpl in *; subst; try reflexivity; try discriminate; try lia.
Qed.

Lemma flt_neg_trans a b c :
  is_nan b = false ->
  flt a b = false -> flt b c = false -> flt a c = false.
Proof.
  unfold flt, SFltb, SFcompare.
  destruct a as [[]|[]| |[] ma ea]; destruct b as [[]|[]| |[] mb eb];
    destruct c as [[]|[]| |[] mc ec];
    try reflexivity; try discriminate; intros _ Hab Hbc;
    split_compare; simpl in *; subst; try reflexivity; try discriminate; try lia.
Qed.

(* ------------------------------------------------------------------ *)
(** ** The head of a stable sort *)

Section SortedFacts.
Context {A : Type} (before : A -> A -> bool).
(** The entries on which [before] is an order. *)
Variable ordered : A -> Prop.
Hypothesis before_asym : forall a b, before a b = true -> before b a = false.
Hypothesis before_neg_trans :
  forall a b c, ordered b -> before a b = false -> before b c = false -> before a c = false.

Lemma before_irrefl a : before a a = false.
Proof.
  destruct (before a a) eqn:E; [|reflexivity].
  pose proof (before_asym _ _ E); congruence.
Qed.

Lemma insert_sorted_length x l :
  length (insert_sorted before x l) = S (length l).
Proof.
  induction l as [|y l IH]; simpl; auto. destruct (before y x); simpl; auto.
Qed.

Lemma stable_sort_length l : length (stable_sort before l) = length l.
Proof.
  induction l as [|x l IH]; simpl; auto. now rewrite insert_sorted_length, IH.
Qed.

Lemma stable_sort_head x l :
  exists rest, stable_sort before (x :: l) = first_best before x l :: rest.
Proof.
  revert x; induction l as [|y l IH]; intros x.
  - exists []; reflexivity.
  - destruct (IH y) as [rest E].
    change (stable_sort before (x :: y :: l))
      with (insert_sorted before x (stable_sort before (y :: l))).
    rewrite E. simpl insert_sorted. simpl first_best.
    destruct (before (first_best before y l) x); eauto.
Qed.

Lemma first_best_In x l : In (first_best before x l) (x :: l).
Proof.
  revert x; induction l as [|y l IH]; intros x; simpl; auto.
  destruct (before (first_best before y l) x); auto.
  right. apply (IH y).
Qed.

(** [first_best] is the entry of least position that nothing comes before. *)
Lemma first_best_spec x l :
  Forall ordered (x :: l) ->
  exists k, nth_error (x :: l) k = Some (first_best before x l)
            /\ forall j y, nth_error (x :: l) j = Some y ->
                           before y (first_best before x l) = false
                           /\ ((j < k)%nat -> before (first_best before x l) y = true).
Proof.
  revert x; induction l as [|y l IH]; intros x Hord.
  - exists 0%nat; split; [reflexivity|].
    intros [|[|j]] z Hz; simpl in Hz; try discriminate.
    inversion Hz; subst. split; [apply before_irrefl|lia].
  - inversion Hord as [|? ? Hx Hrest]; subst.
    destruct (IH y Hrest) as (k & Hk & Hmin).
    simpl first_best.
    set (m := first_best before y l) in *.
    assert (Hm : ordered m).
    { rewrite Forall_forall in Hrest. apply Hrest. apply first_best_In. }
    destruct (before m x) eqn:Emx.
    + exists (S k); split; [exact Hk|].
      intros [|j] z Hz; simpl in Hz.
      * inversion Hz; subst. split; [now apply before_asym | auto].
      * destruct (Hmin j z Hz) as [H1 H2]. split; [exact H1|]. intros; apply H2; lia.
    + exists 0%nat; split; [reflexivity|].
      intros [|j] z Hz; simpl in Hz.
      * inversion Hz; subst. split; [apply before_irrefl|lia].
      * destruct (Hmin j z Hz) as [H1 _]. split; [|lia].
        now apply (before_neg_trans z m x).
Qed.
End SortedFacts.

Lemma nth_error_enumerate_from {A} (l : list A) (s k : nat) :
  nth_error (combine (map Z.of_nat (seq s (length l))) l) k
  = option_map (fun a => (Z.of_nat (s + k), a)) (nth_error l k).
Proof.
  revert s k; induction l as [|a l IH]; intros s [|k]; simpl; auto.
  - now rewrite Nat.add_0_r.
  - rewrite IH. now replace (S s + k)%nat with (s + S k)%nat by lia.
Qed.

Lemma nth_error_enumerate {A} (l : list A) (k : nat) :
  nth_error (enumerate l) k = option_map (fun a => (Z.of_nat k, a)) (nth_error l k).
Proof. unfold enumerate. now rewrite nth_error_enumerate_from. Qed.

Lemma enumerate_length {A} (l : list A) : length (enumerate l) = length l.
Proof. unfold enumerate. rewrite length_combine, length_map, length_seq. lia. Qed.

Lemma py_index_nat {A} (l : list A) (k : nat) (a : A) :
  nth_error l k = Some a -> py_index l (Z.of_nat k) = Ok a.
Proof.
  intros Hk. unfold py_index.
  assert (k < length l)%nat by (apply nth_error_Some; congruence).
  destruct (Z.ltb_spec (Z.of_nat k) (- Z.of_nat (length l))); [lia|].
  destruct (Z.leb_spec (Z.of_nat (length l)) (Z.of_nat k)); [lia|]. simpl.
  destruct (Z.ltb_spec (Z.of_nat k) 0); [lia|].
  now rewrite Nat2Z.id, Hk.
Qed.

Lemma key_before_asym {A} (key : A -> float) reverse a b :
  key_before key reverse a b = true -> key_before key reverse b a = false.
Proof. unfold key_before; destruct reverse; apply flt_asym. Qed.

Lemma key_before_neg_trans {A} (key : A -> float) reverse a b c :
  is_nan (key b) = false ->
  key_before key reverse a b = false -> key_before key reverse b c = false ->
  key_before key reverse a c = false.
Proof.
  unfold key_before; destruct reverse; intros Hb H1 H2.
  - exact (flt_neg_trans _ _ _ Hb H2 H1).
  - exact (flt_neg_trans _ _ _ Hb H1 H2).
Qed.

Lemma sorted_enumerate_head (reverse : bool) (aggs : list float) :
  aggs <> [] -> Forall (fun a => is_nan a = false) aggs ->
  exists k a, best_at reverse aggs k a
              /\ py_index (py_sorted snd reverse (enumerate aggs)) 0 = Ok (Z.of_nat k, a).
Proof.
  intros Hne Hnan.
  destruct (enumerate aggs) as [|x l] eqn:E.
  { apply (f_equal (@length _)) in E. rewrite enumerate_length in E.
    destruct aggs; [congruence | discriminate]. }
  assert (Hord : Forall (fun p : Z * float => is_nan (snd p) = false) (x :: l)).
  { rewrite <- E. apply Forall_forall. intros [i a] Hin.
    apply In_nth_error in Hin. destruct Hin as [n Hn].
    rewrite nth_error_enumerate in Hn.
    destruct (nth_error aggs n) eqn:En; simpl in Hn; inversion Hn; subst.
    rewrite Forall_forall in Hnan. apply Hnan. eapply nth_error_In; eauto. }
  destruct (first_best_spec (key_before snd reverse) (fun p => is_nan (snd p) = false)
              (key_before_asym snd reverse) (key_before_neg_trans snd reverse) x l Hord)
    as (k & Hk & Hbest).
  destruct (stable_sort_head (key_before snd reverse) x l) as [rest Hhd].
  rewrite <- E in Hk, Hbest. rewrite nth_error_enumerate in Hk.
  destruct (nth_error aggs k) as [a|] eqn:Ek; simpl in Hk; [|discriminate].
  exists k, a. split.
  - split; [exact Ek|]. intros j b Hj.
    destruct (Hbest j (Z.of_nat j, b)) as [H1 H2].
    { rewrite nth_error_enumerate, Hj. reflexivity. }
    inversion Hk as [Hm]. rewrite <- Hm in H1, H2.
    unfold key_before in H1, H2; simpl in H1, H2. destruct reverse; auto.
  - unfold py_sorted. rewrite Hhd. inversion Hk as [Hm]. reflexivity.
Qed.

(* ------------------------------------------------------------------ *)
(** ** The prediction selector *)

Lemma mapM_Forall2 {A B} (f : A -> result B) (l : list A) (bs : list B) :
  mapM f l = Ok bs -> Forall2 (fun a b => f a = Ok b) l bs.
Proof.
  revert bs; induction l as [|a l IH]; intros bs; simpl.
  - intros E; inversion E; constructor.
  - destruct (f a) as [b|e] eqn:Ea; simpl; [|discriminate].
    destruct (mapM f l) as [bs'|e]; simpl; [|discriminate].
    intros E; inversion E; subst. constructor; auto.
Qed.

Lemma py_index_in_range {A} (l : list A) (i : Z) :
  - Z.of_nat (length l) <= i < Z.of_nat (length l) -> exists a, py_index l i = Ok a.
Proof.
  intros Hi. unfold py_index.
  destruct (Z.ltb_spec i (- Z.of_nat (length l))); [lia|].
  destruct (Z.leb_spec (Z.of_nat (length l)) i); [lia|]. simpl.
  destruct (nth_error l (Z.to_nat (if i <? 0 then i + Z.of_nat (length l) else i))) eqn:E; eauto.
  apply nth_error_None in E. destruct (Z.ltb_spec i 0); lia.
Qed.

Section SelectorFacts.
Context {W : Type} `{Torch W} `{Numpy}.

Lemma aggregated_sums (losses : list float) (dp : Metadata) (aggs : list float) :
  aggregated losses dp = Ok aggs -> Forall2 (sums_over losses) (indices dp) aggs.
Proof.
  intros E. apply mapM_Forall2 in E.
  eapply Forall2_impl; [|exact E].
  intros idxs a Ha. unfold option_loss in Ha.
  destruct (mapM (py_index losses) idxs) as [picked|e] eqn:Ep; simpl in Ha; [|discriminate].
  inversion Ha; subst. exists picked; split; [now apply mapM_Forall2 | reflexivity].
Qed.

Lemma predict_example_entries (losses : list float) (require_loss : bool)
      (label_id : option Z) (do_probs : bool) (predictions : list prediction)
      (dp : Metadata) :
  rankable losses dp ->
  (forall l, label_id = Some l -> label_in_range l dp) ->
  exists entries,
    example_entries losses require_loss label_id do_probs dp entries
    /\ predict_example losses require_loss label_id do_probs predictions dp
       = Ok (predictions ++ entries).
Proof.
  intros (aggs & Hagg & Hne & Hnan & Hlen) Hlabel.
  pose proof (aggregated_sums _ _ _ Hagg) as Hsums.
  pose proof (Forall2_length Hsums) as Hlen'.
  destruct (sorted_enumerate_head (require_loss && do_probs) aggs Hne Hnan)
    as (k & a & Hbest & Hhead).
  assert (Hopt : exists opt, nth_error (options dp) k = Some opt).
  { destruct (nth_error (options dp) k) eqn:E; eauto.
    apply nth_error_None in E. destruct Hbest as [Hk _].
    assert (k < length aggs)%nat by (apply nth_error_Some; congruence). lia. }
  destruct Hopt as [opt Hopt].
  assert (Hfirst : exists first,
             match label_id with
             | None => first = []
             | Some l => exists la lopt, labelled losses dp l la lopt
                                         /\ first = [Scored (strip lopt) la]
             end
             /\ (predictions <-
                   match label_id with
                   | Some label_id =>
                       prediction <- py_index (options dp) label_id ;;
                       negative_pred_prob <- py_index aggs label_id ;;
                       Ok (predictions ++ [Scored (strip prediction) negative_pred_prob])
                   | None => Ok predictions
                   end ;; Ok predictions) = Ok (predictions ++ first)).
  { destruct label_id as [l|].
    - specialize (Hlabel l eq_refl). unfold label_in_range in Hlabel.
      destruct (py_index_in_range (options dp) l Hlabel) as [lopt Hlopt].
      destruct (py_index_in_range aggs l) as [la Hla]; [lia|].
      exists [Scored (strip lopt) la]. split.
      + exists la, lopt. split; [|reflexivity]. exists aggs; auto.
      + rewrite Hlopt, Hla. reflexivity.
    - exists []. split; [reflexivity|]. simpl. now rewrite app_nil_r. }
  destruct Hfirst as (first & Hshape & Hrun).
  exists (first ++ [if require_loss then Scored (strip opt) a else Bare (strip opt)]).
  split.
  - exists k, a, opt. split; [exists aggs; auto|]. exists first; auto.
  - unfold predict_example. rewrite Hagg. simpl bind at 1.
    destruct (match label_id with
              | Some label_id =>
                  prediction <- py_index (options dp) label_id ;;
                  negative_pred_prob <- py_index aggs label_id ;;
                  Ok (predictions ++ [Scored (strip prediction) negative_pred_prob])
              | None => Ok predictions
              end) as [preds'|e]; simpl in Hrun; [|discriminate].
    inversion Hrun; subst preds'. simpl bind at 1.
    rewrite app_assoc.
    destruct require_loss; simpl negb; cbv iota.
    + replace (if do_probs then true else false) with (true && do_probs)%bool
        by (destruct do_probs; reflexivity).
      simpl andb in Hhead |- *. rewrite Hhead. simpl.
      now rewrite (py_index_nat _ _ _ Hopt).
    + simpl andb in Hhead. rewrite Hhead. simpl.
      now rewrite (py_index_nat _ _ _ Hopt).
Qed.

Lemma predict_loop_entries (losses : list float) (require_loss : bool)
      (label_id : option Z) (do_probs : bool) (md : list Metadata) :
  Forall (rankable losses) md ->
  (forall l, label_id = Some l -> Forall (label_in_range l) md) ->
  forall init,
  exists per_example,
    Forall2 (example_entries losses require_loss label_id do_probs) md per_example
    /\ fold_left (fun acc dp =>
                    predictions <- acc ;;
                    predict_example losses require_loss label_id do_probs predictions dp)
                 md (Ok init)
       = Ok (init ++ concat per_example).
Proof.
  intros Hrank Hlabel. induction md as [|dp md IH]; intros init.
  - exists []. split; [constructor|]. simpl. now rewrite app_nil_r.
  - inversion Hrank as [|? ? Hdp Hmd]; subst.
    destruct (predict_example_entries losses require_loss label_id do_probs init dp Hdp)
      as (entries & Hentries & Hrun).
    { intros l Hl. specialize (Hlabel l Hl). now inversion Hlabel. }
    destruct (IH Hmd) with (init := init ++ entries) as (rest & Hrest & Hfold).
    { intros l Hl. specialize (Hlabel l Hl). now inversion Hlabel. }
    exists (entries :: rest). split; [constructor; auto|].
    cbn [fold_left]. cbn [bind]. rewrite Hrun, Hfold. simpl. now rewrite app_assoc.
Qed.

Lemma do_predict_entries (w : W) (data : Data) (batch_size : Z) (losses : option (list float))
      (verbose require_loss : bool) (label_id : option Z) (calibration do_probs : bool) :
  let scores := do_inference w data batch_size verbose false do_probs in
  Z.of_nat (length scores) = data_len data ->
  Forall (rankable scores) (metadata data) ->
  (forall l, label_id = Some l -> Forall (label_in_range l) (metadata data)) ->
  exists per_example,
    Forall2 (example_entries scores require_loss label_id do_probs) (metadata data) per_example
    /\ do_predict w data batch_size losses verbose require_loss label_id calibration do_probs
       = Ok (concat per_example).
Proof.
  intros scores Hlen Hrank Hlabel. unfold do_predict. fold scores.
  rewrite Hlen, Z.eqb_refl. simpl negb. cbv iota.
  destruct (predict_loop_entries scores require_loss label_id do_probs (metadata data)
              Hrank Hlabel []) as (per & Hper & Hfold).
  exists per. split; [exact Hper | exact Hfold].
Qed.
End SelectorFacts.



Section SelectorClaims.
Context {W : Type} `{Torch W} `{Numpy}.




(** C10: the result of [do_predict] does not depend on its [losses]
    argument: the argument is overwritten by a fresh [do_inference] run,
    whose length is asserted to be [len(data)], before any option is
    selected. *)
Theorem do_predict_ignores_losses (w : W) (data : Data) (batch_size : Z)
        (losses1 losses2 : option (list float)) (verbose require_loss : bool)
        (label_id : option Z) (calibration do_probs : bool) :
  do_predict w data batch_size losses1 verbose require_loss label_id calibration do_probs
  = do_predict w data batch_size losses2 verbose require_loss label_id calibration do_probs
  /\ do_predict w data batch_size losses1 verbose require_loss label_id calibration do_probs
     = let scores := do_inference w data batch_size verbose false do_probs in
       if Z.of_nat (length scores) =? data_len data then
         fold_left (fun acc dp =>
                      predictions <- acc ;;
                      predict_example scores require_loss label_id do_probs predictions dp)
                   (metadata data) (Ok [])
       else Raise AssertionError.
Proof.
  split; [reflexivity|]. unfold do_predict. cbv zeta.
  now destruct (Z.of_nat (length (do_inference w data batch_size verbose false do_probs))
                =? data_len data).
Qed.
End SelectorClaims.

(** The example of the specification: three options with aggregated losses
    5.0, 1.0 and 7.0. *)
Lemma three_options_rankable :
  Forall (rankable (do_inference 0%nat three_options 1 false false false))
         (metadata three_options).
Proof.
  constructor; [|constructor].
  exists [of_int binary64 5; of_int binary64 1; of_int binary64 7].
  split; [vm_compute; reflexivity|]. split; [discriminate|].
  split; [repeat constructor | reflexivity].
Qed.

Lemma three_options_min_loss :
  do_predict 0%nat three_options 1 None false false None false false
  = Ok [Bare "banana"].
Proof. vm_compute. reflexivity. Qed.

Lemma three_options_label_and_min :
  do_predict 0%nat three_options 1 None false false (Some 2) false false
  = Ok [Scored "cherry" (of_int binary64 7); Bare "banana"].
Proof. vm_compute. reflexivity. Qed.

Lemma three_options_ranked_pair :
  do_predict 0%nat three_options 1 None false true None false false
  = Ok [Scored "banana" (of_int binary64 1)].
Proof. vm_compute. reflexivity. Qed.




(* ------------------------------------------------------------------ *)
(** ** The inference runner (C3) *)

Lemma fold_left_app_concat {A B} (f : A -> list B) (l : list A) (init : list B) :
  fold_left (fun acc a => acc ++ f a) l init = init ++ concat (map f l).
Proof.
  revert init; induction l as [|a l IH]; intros init; simpl.
  - now rewrite app_nil_r.
  - now rewrite IH, app_assoc.
Qed.

(** C3: with [do_probs] unset, [do_inference] returns the per-item losses of
    the batches in dataloader order; with [do_probs] set it returns
    [softmax(-losses)] over that whole array: every item is divided by the one
    sum of [exp(-loss)] over all items of all batches. *)
Theorem do_inference_global_softmax {W : Type} `{Torch W} `{Numpy} (w : W) (data : Data)
        (batch_size : Z) (verbose calibration : bool) :
  let batches := get_dataloader data batch_size false calibration 0%nat in
  let losses := concat (map (fun batch => tolist (score_batch w batch)) batches) in
  let total := np_sum (map (fun l => np_exp (fneg l)) losses) in
  do_inference w data batch_size verbose calibration false = losses
  /\ do_inference w data batch_size verbose calibration true
     = map (fun l => fdiv binary64 (np_exp (fneg l)) total) losses
  /\ length (do_inference w data batch_size verbose calibration true) = length losses.
Proof.
  intros batches losses total.
  assert (Hraw : do_inference w data batch_size verbose calibration false = losses).
  { unfold do_inference. now rewrite fold_left_app_concat. }
  assert (Hprob : do_inference w data batch_size verbose calibration true
                  = map (fun l => fdiv binary64 (np_exp (fneg l)) total) losses).
  { unfold do_inference. rewrite fold_left_app_concat. simpl app.
    unfold softmax. fold batches. fold losses.
    rewrite !map_map. reflexivity. }
  split; [exact Hraw|]. split; [exact Hprob|]. rewrite Hprob. apply length_map.
Qed.

(* ------------------------------------------------------------------ *)
(** ** Optimiser setup (C8) *)

(** C8, as stated, fails: with [fp16] set and apex missing, the supported
    name "adamw" does not succeed, and an adamw-prefixed variant raises the
    ImportError of [setup_fp16] rather than NotImplementedError; without
    bitsandbytes "8bit-adam" does not succeed either. *)
Lemma setup_optimizer_import_error_first :
  let lr := of_int binary32 1 in
  setup_optimizer bare_env fp16_self three_parameters "adamw" 100 lr fzero 10
  = Raise ImportError
  /\ setup_optimizer bare_env fp16_self three_parameters "adamw-fixed" 100 lr fzero 10
     = Raise ImportError
  /\ setup_optimizer bare_env fp32_self three_parameters "8bit-adam" 100 lr fzero 10
     = Raise ImportError.
Proof. cbv zeta; repeat split; reflexivity. Qed.

Lemma prefix_adamw_not_others (optimization : string) :
  String.prefix "adamw" optimization = true ->
  String.eqb optimization "adafactor" = false /\ String.eqb optimization "8bit-adam" = false.
Proof.
  intros Hp; split.
  - destruct (String.eqb_spec optimization "adafactor") as [->|]; [discriminate Hp | reflexivity].
  - destruct (String.eqb_spec optimization "8bit-adam") as [->|]; [discriminate Hp | reflexivity].
Qed.

(** C8 (amended): [setup_optimizer] raises NotImplementedError for every name
    that is neither supported nor adamw-prefixed; for an adamw-prefixed name
    other than "adamw" it raises NotImplementedError when [fp16] is off or
    apex can be imported, and the ImportError of [setup_fp16] otherwise; for
    the three supported names it never raises NotImplementedError: it
    succeeds or raises ImportError.  "adamw" succeeds exactly when [fp16] is
    off or apex can be imported (bitsandbytes plays no part), "8bit-adam"
    exactly when bitsandbytes can be imported and [fp16] is off or apex can be
    imported, and "adafactor" always. *)
Theorem setup_optimizer_outcomes {P : Type} (env : Env) (self : Self)
        (named_parameters : list (string * P)) (optimization : string)
        (num_training_steps : Z) (lr weight_decay : float) (warmup_steps : Z) :
  let run := setup_optimizer env self named_parameters optimization num_training_steps
                             lr weight_decay warmup_steps in
  (supported optimization = false -> String.prefix "adamw" optimization = false ->
   raises run NotImplementedError)
  /\ (String.prefix "adamw" optimization = true -> optimization <> "adamw"%string ->
      raises run (if fp16 self && negb (apex_importable env)
                  then ImportError else NotImplementedError))
  /\ (supported optimization = true ->
      ~ raises run NotImplementedError /\ (succeeds run \/ raises run ImportError))
  /\ (optimization = "adamw"%string ->
      (succeeds run <-> fp16 self = false \/ apex_importable env = true))
  /\ (optimization = "8bit-adam"%string ->
      (succeeds run <-> bitsandbytes_importable env = true
                        /\ (fp16 self = false \/ apex_importable env = true)))
  /\ (optimization = "adafactor"%string -> succeeds run).
Proof.
  intros run; subst run; unfold setup_optimizer, supported, raises, succeeds, setup_fp16.
  split; [|split; [|split; [|split; [|split]]]].
  - intros Hsup Hpre. apply orb_false_elim in Hsup as [Hsup H8].
    apply orb_false_elim in Hsup as [Haf Haw]. now rewrite Haf, Hpre, H8.
  - intros Hpre Hneq. destruct (prefix_adamw_not_others _ Hpre) as [-> _]. rewrite Hpre.
    apply String.eqb_neq in Hneq. rewrite Hneq.
    destruct (fp16 self), (apex_importable env); reflexivity.
  - intros Hsup.
    destruct (String.eqb_spec optimization "adafactor") as [->|Haf];
      [simpl; split; [discriminate | eauto]|].
    destruct (String.eqb_spec optimization "adamw") as [->|Haw].
    + simpl. destruct (fp16 self), (apex_importable env); simpl;
        (split; [discriminate | eauto]).
    + destruct (String.eqb_spec optimization "8bit-adam") as [->|H8]; [|discriminate Hsup].
      simpl. destruct (bitsandbytes_importable env), (fp16 self), (apex_importable env);
        simpl; (split; [discriminate | eauto]).
  - intros ->. simpl.
    destruct (fp16 self), (apex_importable env); simpl; split;
      try (intros _; eauto; fail);
      try (intros [a Ha]; discriminate Ha);
      intros [Hf | Hf]; discriminate Hf.
  - intros ->. simpl.
    destruct (bitsandbytes_importable env), (fp16 self), (apex_importable env); simpl; split;
      try (intros _; eauto; fail);
      try (intros [a Ha]; discriminate Ha);
      intros [Hb [Hf | Hf]]; first [discriminate Hb | discriminate Hf].
  - intros ->. simpl. eauto.
Qed.

Lemma setup_optimizer_outcomes_witness :
  let lr := of_int binary32 1 in
  raises (setup_optimizer full_env fp16_self three_parameters "sgd" 100 lr fzero 10)
         NotImplementedError
  /\ raises (setup_optimizer full_env fp16_self three_parameters "adamw-fixed" 100 lr fzero 10)
            NotImplementedError
  /\ ~ raises (setup_optimizer bare_env fp16_self three_parameters "adamw" 100 lr fzero 10)
              NotImplementedError
  /\ succeeds (setup_optimizer apex_only_env fp16_self three_parameters "adamw" 100 lr fzero 10)
  /\ succeeds (setup_optimizer full_env fp16_self three_parameters "8bit-adam" 100 lr fzero 10)
  /\ succeeds (setup_optimizer bare_env fp16_self three_parameters "adafactor" 100 lr fzero 10).
Proof.
  cbv zeta. split; [|split; [|split; [|split; [|split]]]].
  - destruct (setup_optimizer_outcomes full_env fp16_self three_parameters "sgd"
                100 (of_int binary32 1) fzero 10) as (Hunknown & _).
    apply Hunknown; reflexivity.
  - destruct (setup_optimizer_outcomes full_env fp16_self three_parameters "adamw-fixed"
                100 (of_int binary32 1) fzero 10) as (_ & Hvariant & _).
    apply Hvariant; [reflexivity | discriminate].
  - destruct (setup_optimizer_outcomes bare_env fp16_self three_parameters "adamw"
                100 (of_int binary32 1) fzero 10) as (_ & _ & Hnot & _).
    apply Hnot; reflexivity.
  - destruct (setup_optimizer_outcomes apex_only_env fp16_self three_parameters "adamw"
                100 (of_int binary32 1) fzero 10) as (_ & _ & _ & Hok & _).
    apply Hok; [reflexivity | right; reflexivity].
  - destruct (setup_optimizer_outcomes full_env fp16_self three_parameters "8bit-adam"
                100 (of_int binary32 1) fzero 10) as (_ & _ & _ & _ & Hok & _).
    apply Hok; [reflexivity | split; [reflexivity | right; reflexivity]].
  - destruct (setup_optimizer_outcomes bare_env fp16_self three_parameters "adafactor"
                100 (of_int binary32 1) fzero 10) as (_ & _ & _ & _ & _ & Haf).
    apply Haf; reflexivity.
Defined.

(* ------------------------------------------------------------------ *)
(** ** The training loop (C1, C7) *)


Section TrainingFacts.
Context {W : Type} `{Torch W} `{Numpy}.

Lemma count_events_app (p : event -> bool) (tr1 tr2 : list event) :
  count_events p (tr1 ++ tr2) = (count_events p tr1 + count_events p tr2)%nat.
Proof. unfold count_events. now rewrite filter_app, length_app. Qed.


Lemma count_none (p : event -> bool) (tr : list event) :
  Forall (fun e => p e = false) tr -> count_events p tr = 0%nat.
Proof.
  unfold count_events. induction 1 as [|e tr He _ IH]; simpl; auto. now rewrite He.
Qed.


Lemma apply_update_events (self : Self) (max_grad_norm : float) (w : W) :
  snd (apply_update self max_grad_norm w) = update_events self max_grad_norm.
Proof. unfold apply_update, update_events. destruct (has_scheduler self); reflexivity. Qed.

Lemma backward_pass_ok (self : Self) (env : Env) (w : W) (loss : float) :
  can_backward self env ->
  backward_pass self env w loss = Ok (backward (fp16 self) w loss).
Proof.
  unfold can_backward, backward_pass. intros [E | E]; rewrite E; [reflexivity|].
  destruct (fp16 self); reflexivity.
Qed.


Lemma save_ok (self : Self) (step : Z) :
  can_save self -> save self step = Ok (saved_events self step).
Proof.
  unfold can_save, save, saved_events. intros [E | E].
  - destruct (Z.leb_spec (local_rank self) 0); [lia | reflexivity].
  - destruct (out_dir self); [|congruence]. now destruct (local_rank self <=? 0).
Qed.

Variable self : Self.
Variable env : Env.
Variables num_training_steps save_period log_period gradient_accumulation_steps : Z.
Variable max_grad_norm : float.
Hypothesis accumulation_nonzero : gradient_accumulation_steps <> 0.
Hypothesis log_nonzero : log_period <> 0.
Hypothesis save_nonzero : save_period <> 0.
Hypothesis backward_available : can_backward self env.
Hypothesis save_available : can_save self.

Let step := train_batch self env num_training_steps save_period log_period
                        gradient_accumulation_steps max_grad_norm.


(** *** A run in which no loss is NaN *)

Hypothesis accumulation_positive : 0 < gradient_accumulation_steps.




End TrainingFacts.




(** C1 (the code departs from it): with a NaN loss at step 3 of a run of 100
    steps the loop prints its message, sets [stop_training] and leaves only
    the inner loop over the batches; the flag is never read, so the next
    epoch starts and the run goes on to step 100: 67 backward passes and 33
    stop messages instead of 2 and 1. *)
Theorem do_train_continues_after_nan :
  exists st,
    do_train fp32_self bare_env 0%nat
             (training_data [scored_batch; scored_batch; unscored_batch; scored_batch]) 1
             100 1000 1000 1 (of_int binary32 1) = Ok st
    /\ firstn 8 (trace st)
       = [LogInfo (MsgTraining 3 4 100 1);
          Backward false; ClipGradNorm (of_int binary32 1); OptimizerStep; SchedulerStep;
          ZeroGrad; Backward false; ClipGradNorm (of_int binary32 1)]
    /\ nth_error (filter (fun e => is_backward e || is_print_stop e) (trace st)) 2
       = Some (PrintStop S754_nan)
    /\ nth_error (filter (fun e => is_backward e || is_print_stop e) (trace st)) 3
       = Some (Backward false)
    /\ global_step st = 100
    /\ stop_training st = true
    /\ count_events is_print_stop (trace st) = 33%nat
    /\ count_events is_backward (trace st) = 67%nat.
Proof.
  eexists. split; [vm_compute; reflexivity|].
  repeat split; vm_compute; reflexivity.
Qed.

(* ------------------------------------------------------------------ *)
(** ** Non-finite losses *)

Lemma fmul_nonfinite_zero f x s :
  is_finite x = false -> fmul f x (S754_zero s) = S754_nan.
Proof. destruct x; simpl; try discriminate; reflexivity. Qed.

Lemma fadd_nan_l f y : fadd f S754_nan y = S754_nan.
Proof. reflexivity. Qed.

Lemma fadd_nan_r f x : fadd f x S754_nan = S754_nan.
Proof. destruct x; reflexivity. Qed.

Lemma fold_fadd_nan f l : fold_left (fadd f) l S754_nan = S754_nan.
Proof. induction l as [|x l IH]; simpl; auto. Qed.

Lemma fsum_nan f l : In S754_nan l -> fsum f l = S754_nan.
Proof.
  unfold fsum. generalize fzero. induction l as [|x l IH]; intros acc Hin; [contradiction|].
  simpl. destruct Hin as [->|Hin].
  - rewrite fadd_nan_r. apply fold_fadd_nan.
  - now apply IH.
Qed.

Lemma fdiv_nan_l f y : fdiv f S754_nan y = S754_nan.
Proof. reflexivity. Qed.

Lemma fdiv_nan_r f x : fdiv f x S754_nan = S754_nan.
Proof. destruct x; reflexivity. Qed.

Lemma nth_error_map2 {A B C} (f : A -> B -> C) l1 l2 j a b :
  nth_error l1 j = Some a -> nth_error l2 j = Some b ->
  nth_error (map2 f l1 l2) j = Some (f a b).
Proof.
  revert l2 j; induction l1 as [|x l1 IH]; intros [|y l2] [|j] H1 H2; simpl in *;
    try discriminate.
  - now inversion H1; inversion H2.
  - now apply IH.
Qed.

(** X1: Masking is a multiplication: a position excluded by the label mask whose
    cross entropy is infinite or NaN still turns the score of its example
    into NaN, [torch.sum] giving NaN for a row that holds a NaN, as IEEE-754
    addition does in any order. *)
Theorem run_model_masked_out_poison {W : Type} `{Torch W} (b len : nat) (w : W)
        (ids am tt : tensor2 Z) (lbl : option (tensor2 Z)) (i j : nat)
        (logits : list (list float)) (targets mask : list Z) (row : list float) (target : Z) :
  batch_shape b len w ids am tt lbl ->
  nth_error (forward w ids am) i = Some logits ->
  nth_error (targets_of ids lbl) i = Some targets ->
  nth_error tt i = Some mask ->
  nth_error (removelast logits) j = Some row ->
  nth_error (tl targets) j = Some target ->
  nth_error (tl mask) j = Some 0 ->
  is_finite (cross_entropy row target) = false ->
  propagates_nan (@torch_sum W _) ->
  nth_error (run_model w ids am tt lbl) i = Some S754_nan.
Proof.
  intros Hshape Hl Ht Hm Hrow Htarget Hzero Hce Hsum.
  rewrite (run_model_rowwise b len w ids am tt lbl Hshape).
  destruct Hshape as (Hids & Htt & Htg & Hout).
  destruct (nth_error_map3 score_by_sum (forward w ids am) (targets_of ids lbl) tt i mask)
    as (logits' & targets' & Hl' & Ht' & Hs); auto.
  { destruct Hout as [-> _], Htt as [-> _]; reflexivity. }
  { destruct Htg as [-> _], Htt as [-> _]; reflexivity. }
  rewrite Hl in Hl'; rewrite Ht in Ht'. inversion Hl'; inversion Ht'; subst logits' targets'.
  unfold spec_scores_by_sum. rewrite Hs. f_equal.
  unfold score_by_sum. rewrite Hsum; [reflexivity|].
  unfold masked_token_losses.
  eapply nth_error_In with (n := j).
  erewrite nth_error_map2; [| apply nth_error_map2; eassumption | exact Hzero].
  f_equal. now apply fmul_nonfinite_zero.
Qed.

(* ------------------------------------------------------------------ *)
(** ** More on the inference runner *)

Section InferenceFacts.
Context {W : Type} `{Torch W} `{Numpy}.

Lemma score_batch_length (w : W) (batch : Batch) (b len : nat) :
  batch_shape b len w (input_ids batch) (attention_mask batch) (token_type_ids batch)
              (labels batch) ->
  length (score_batch w batch) = length (input_ids batch).
Proof.
  intros Hshape. unfold score_batch.
  rewrite (run_model_rowwise b len _ _ _ _ _ Hshape).
  unfold spec_scores_by_sum. rewrite map3_length.
  destruct Hshape as ([Hids _] & [Htt _] & [Htg _] & [Hout _]). lia.
Qed.

Lemma length_concat_map {A B} (f : A -> list B) (g : A -> nat) (l : list A) :
  Forall (fun a => length (f a) = g a) l ->
  length (concat (map f l)) = list_sum (map g l).
Proof.
  induction 1 as [|a l Ha _ IH]; simpl; auto. now rewrite length_app, Ha, IH.
Qed.
End InferenceFacts.

(** X2: [do_inference] returns one value per example of the inference batches,
    with and without [do_probs]. *)
Theorem do_inference_length {W : Type} `{Torch W} `{Numpy} (w : W) (data : Data)
        (batch_size : Z) (verbose calibration do_probs : bool) :
  Forall (fun batch => exists b len,
              batch_shape b len w (input_ids batch) (attention_mask batch)
                          (token_type_ids batch) (labels batch))
         (get_dataloader data batch_size false calibration 0%nat) ->
  length (do_inference w data batch_size verbose calibration do_probs)
  = list_sum (map (fun batch => length (input_ids batch))
                  (get_dataloader data batch_size false calibration 0%nat)).
Proof.
  intros Hshapes. unfold do_inference. rewrite fold_left_app_concat. simpl app.
  assert (Hlen : length (concat (map (fun batch => tolist (score_batch w batch))
                                     (get_dataloader data batch_size false calibration 0%nat)))
                 = list_sum (map (fun batch => length (input_ids batch))
                                 (get_dataloader data batch_size false calibration 0%nat))).
  { apply length_concat_map. eapply Forall_impl; [|exact Hshapes].
    intros batch (b & len & Hshape). unfold tolist. rewrite length_map.
    now apply (score_batch_length w batch b len). }
  destruct do_probs; [|exact Hlen].
  unfold softmax. now rewrite !length_map.
Qed.

(** X3: The softmax of [do_probs] is global: one NaN loss anywhere (for instance
    an example without scored tokens) turns every returned probability into
    NaN, as soon as [exp] maps NaN to NaN and the sum of an array that holds a
    NaN is NaN. *)
Theorem do_inference_probs_all_nan {W : Type} `{Torch W} `{Numpy} (w : W) (data : Data)
        (batch_size : Z) (verbose calibration : bool) :
  np_exp S754_nan = S754_nan ->
  propagates_nan np_sum ->
  In S754_nan (do_inference w data batch_size verbose calibration false) ->
  Forall (fun p => p = S754_nan) (do_inference w data batch_size verbose calibration true).
Proof.
  intros Hexp Hsum Hin. unfold do_inference in *.
  set (losses := fold_left _ _ _) in *. unfold softmax.
  assert (Htotal : np_sum (map np_exp (map fneg losses)) = S754_nan).
  { apply Hsum. rewrite map_map.
    apply in_map_iff. exists S754_nan. split; [exact Hexp | exact Hin]. }
  rewrite Htotal. apply Forall_forall. intros p Hp.
  apply in_map_iff in Hp. destruct Hp as (e & <- & _). apply fdiv_nan_r.
Qed.

(* ------------------------------------------------------------------ *)
(** ** More on the prediction selector *)

Lemma py_index_raises {A} (l : list A) (i : Z) (e : exn) :
  py_index l i = Raise e -> e = IndexError.
Proof.
  unfold py_index. destruct ((i <? - Z.of_nat (length l)) || (Z.of_nat (length l) <=? i)).
  - intros E; now inversion E.
  - destruct (nth_error l _); intros E; now inversion E.
Qed.

Lemma py_index_out_of_bounds {A} (l : list A) (i : Z) :
  out_of_bounds (length l) i -> py_index l i = Raise IndexError.
Proof.
  intros Hout. unfold py_index, out_of_bounds in *.
  destruct (Z.ltb_spec i (- Z.of_nat (length l))); [reflexivity|].
  destruct (Z.leb_spec (Z.of_nat (length l)) i); [reflexivity | lia].
Qed.

Lemma mapM_raises {A B} (f : A -> result B) (l : list A) (e : exn) :
  (forall a e', f a = Raise e' -> e' = IndexError) ->
  mapM f l = Raise e -> e = IndexError.
Proof.
  intros Hf. induction l as [|a l IH]; simpl; [discriminate|].
  destruct (f a) as [b|e'] eqn:Ea; simpl.
  - destruct (mapM f l) as [bs|e'']; simpl; [discriminate|].
    intros E; inversion E; subst. now apply IH.
  - intros E; inversion E; subst. now apply (Hf a).
Qed.

Lemma mapM_raise_at {A B} (f : A -> result B) (l : list A) (a : A) :
  (forall a e', f a = Raise e' -> e' = IndexError) ->
  In a l -> f a = Raise IndexError -> mapM f l = Raise IndexError.
Proof.
  intros Hf Hin Ha. induction l as [|x l IH]; [contradiction|]. simpl.
  destruct (f x) as [b|e'] eqn:Ex; simpl.
  - destruct Hin as [->|Hin]; [congruence|]. now rewrite (IH Hin).
  - now rewrite (Hf x e' Ex).
Qed.

Section SelectorErrors.
Context {W : Type} `{Torch W} `{Numpy}.

Lemma option_loss_raises (losses : list float) (idxs : list Z) (e : exn) :
  option_loss losses idxs = Raise e -> e = IndexError.
Proof.
  unfold option_loss.
  destruct (mapM (py_index losses) idxs) as [picked|e'] eqn:E; simpl; [discriminate|].
  intros E'; inversion E'; subst. eapply mapM_raises; [|exact E].
  intros a e''. apply py_index_raises.
Qed.

Lemma aggregated_raises (losses : list float) (dp : Metadata) (e : exn) :
  aggregated losses dp = Raise e -> e = IndexError.
Proof. apply mapM_raises. intros idxs e'. apply option_loss_raises. Qed.

Lemma predict_example_raises (losses : list float) (require_loss : bool)
      (label_id : option Z) (do_probs : bool) (predictions : list prediction)
      (dp : Metadata) (e : exn) :
  predict_example losses require_loss label_id do_probs predictions dp = Raise e ->
  e = IndexError.
Proof.
  unfold predict_example.
  destruct (aggregated losses dp) as [aggs|e'] eqn:Ea; cbn [bind].
  2:{ intros E; inversion E; subst. now apply (aggregated_raises losses dp). }
  destruct label_id as [l|]; cbn [bind].
  - destruct (py_index (options dp) l) as [o|e'] eqn:Eo; cbn [bind].
    2:{ intros E; inversion E; subst. now apply py_index_raises in Eo. }
    destruct (py_index aggs l) as [a|e'] eqn:El; cbn [bind].
    2:{ intros E; inversion E; subst. now apply py_index_raises in El. }
    destruct require_loss; cbn [negb];
      match goal with |- context [py_index (py_sorted ?k ?r ?x) 0] =>
        destruct (py_index (py_sorted k r x) 0) as [t|e'] eqn:Et end; cbn [bind];
      try (intros E; inversion E; subst; now apply py_index_raises in Et);
      destruct (py_index (options dp) (fst t)) as [o'|e'] eqn:Eo'; cbn [bind];
      intros E; inversion E; subst; now apply py_index_raises in Eo'.
  - destruct require_loss; cbn [negb];
      match goal with |- context [py_index (py_sorted ?k ?r ?x) 0] =>
        destruct (py_index (py_sorted k r x) 0) as [t|e'] eqn:Et end; cbn [bind];
      try (intros E; inversion E; subst; now apply py_index_raises in Et);
      destruct (py_index (options dp) (fst t)) as [o'|e'] eqn:Eo'; cbn [bind];
      intros E; inversion E; subst; now apply py_index_raises in Eo'.
Qed.

Lemma predict_loop_raises (losses : list float) (require_loss : bool)
      (label_id : option Z) (do_probs : bool) (md : list Metadata)
      (acc : result (list prediction)) :
  ok_or_index_error acc ->
  ok_or_index_error
    (fold_left (fun acc dp =>
                  predictions <- acc ;;
                  predict_example losses require_loss label_id do_probs predictions dp)
               md acc).
Proof.
  revert acc; induction md as [|dp md IH]; intros acc Hacc; [exact Hacc|].
  cbn [fold_left]. apply IH. destruct acc as [preds|e]; cbn [bind]; [|exact Hacc].
  destruct (predict_example losses require_loss label_id do_probs preds dp) eqn:E;
    simpl; auto. now apply predict_example_raises in E.
Qed.

Lemma predict_loop_raise_at (losses : list float) (require_loss : bool)
      (label_id : option Z) (do_probs : bool) (md : list Metadata) (dp : Metadata)
      (acc : result (list prediction)) :
  ok_or_index_error acc ->
  In dp md ->
  (forall preds, predict_example losses require_loss label_id do_probs preds dp
                 = Raise IndexError) ->
  fold_left (fun acc dp =>
               predictions <- acc ;;
               predict_example losses require_loss label_id do_probs predictions dp)
            md acc
  = Raise IndexError.
Proof.
  intros Hacc Hin Hdp. apply in_split in Hin. destruct Hin as (pre & post & ->).
  rewrite fold_left_app. cbn [fold_left].
  pose proof (predict_loop_raises losses require_loss label_id do_probs pre acc Hacc) as Hpre.
  destruct (fold_left _ pre acc) as [preds|e]; cbn [bind]; simpl in Hpre.
  - rewrite Hdp. clear. induction post as [|x post IH]; [reflexivity | exact IH].
  - subst e. clear. induction post as [|x post IH]; [reflexivity | exact IH].
Qed.
End SelectorErrors.

(** X4: [do_predict] fails in two ways only: the length assertion, or an
    [IndexError] from the indices, the options or an empty ranking. *)
Theorem do_predict_error_kinds {W : Type} `{Torch W} `{Numpy} (w : W) (data : Data)
        (batch_size : Z) (losses : option (list float)) (verbose require_loss : bool)
        (label_id : option Z) (calibration do_probs : bool) (e : exn) :
  do_predict w data batch_size losses verbose require_loss label_id calibration do_probs
  = Raise e ->
  e = AssertionError \/ e = IndexError.
Proof.
  unfold do_predict.
  destruct (negb (Z.of_nat (length (do_inference w data batch_size verbose false do_probs))
                  =? data_len data)).
  - intros E; inversion E; auto.
  - intros E. right.
    pose proof (predict_loop_raises (do_inference w data batch_size verbose false do_probs)
                  require_loss label_id do_probs (metadata data) (Ok []) I) as Hloop.
    rewrite E in Hloop. exact Hloop.
Qed.

(** X5: An index outside the loss array, in any index set of any example, makes
    the whole call raise [IndexError]: no prediction is returned for the
    other examples either. *)
Theorem do_predict_index_out_of_bounds {W : Type} `{Torch W} `{Numpy} (w : W) (data : Data)
        (batch_size : Z) (losses : option (list float)) (verbose require_loss : bool)
        (label_id : option Z) (calibration do_probs : bool)
        (dp : Metadata) (idxs : list Z) (i : Z) :
  let scores := do_inference w data batch_size verbose false do_probs in
  Z.of_nat (length scores) = data_len data ->
  In dp (metadata data) -> In idxs (indices dp) -> In i idxs ->
  out_of_bounds (length scores) i ->
  do_predict w data batch_size losses verbose require_loss label_id calibration do_probs
  = Raise IndexError.
Proof.
  intros scores Hlen Hdp Hidxs Hi Hout. unfold do_predict. fold scores.
  rewrite Hlen, Z.eqb_refl. cbn [negb].
  apply (predict_loop_raise_at scores require_loss label_id do_probs (metadata data) dp);
    [exact I | exact Hdp |].
  intros preds. unfold predict_example.
  assert (Hagg : aggregated scores dp = Raise IndexError).
  { apply (mapM_raise_at (option_loss scores) (indices dp) idxs); [|exact Hidxs|].
    - intros a e'. apply option_loss_raises.
    - unfold option_loss.
      rewrite (mapM_raise_at (py_index scores) idxs i); [reflexivity| |exact Hi|].
      + intros a e'. apply py_index_raises.
      + now apply py_index_out_of_bounds. }
  now rewrite Hagg.
Qed.

(** X6: An example without options (an empty list of index sets) makes the call
    raise [IndexError], whatever the flags. *)
Theorem do_predict_no_options {W : Type} `{Torch W} `{Numpy} (w : W) (data : Data)
        (batch_size : Z) (losses : option (list float)) (verbose require_loss : bool)
        (label_id : option Z) (calibration do_probs : bool) (dp : Metadata) :
  Z.of_nat (length (do_inference w data batch_size verbose false do_probs)) = data_len data ->
  In dp (metadata data) -> indices dp = [] ->
  do_predict w data batch_size losses verbose require_loss label_id calibration do_probs
  = Raise IndexError.
Proof.
  intros Hlen Hdp Hempty. unfold do_predict.
  rewrite Hlen, Z.eqb_refl. cbn [negb].
  apply (predict_loop_raise_at _ require_loss label_id do_probs (metadata data) dp);
    [exact I | exact Hdp |].
  intros preds. unfold predict_example, aggregated. rewrite Hempty. cbn [mapM bind].
  destruct label_id as [l|]; cbn [bind].
  - destruct (py_index (options dp) l) as [o|e] eqn:Eo; cbn [bind].
    + rewrite (py_index_out_of_bounds (@nil float) l); [reflexivity|].
      unfold out_of_bounds; simpl; lia.
    + now rewrite (py_index_raises _ _ _ Eo).
  - destruct require_loss; reflexivity.
Qed.

(** X7: With [label_id] given and [require_loss] set, every example contributes
    two scored pairs: the option at [label_id], then the top-ranked option. *)
Theorem do_predict_label_and_ranked_entries {W : Type} `{Torch W} `{Numpy} (w : W)
        (data : Data) (batch_size : Z) (losses : option (list float))
        (verbose calibration do_probs : bool) (label_id : Z) :
  let scores := do_inference w data batch_size verbose false do_probs in
  Z.of_nat (length scores) = data_len data ->
  Forall (rankable scores) (metadata data) ->
  Forall (label_in_range label_id) (metadata data) ->
  exists per_example,
    do_predict w data batch_size losses verbose true (Some label_id) calibration do_probs
    = Ok (concat per_example)
    /\ Forall2 (fun dp entries => exists la lopt k a opt,
                   labelled scores dp label_id la lopt
                   /\ selected do_probs scores dp k a opt
                   /\ entries = [Scored (strip lopt) la; Scored (strip opt) a])
               (metadata data) per_example.
Proof.
  intros scores Hlen Hrank Hlabel.
  destruct (do_predict_entries w data batch_size losses verbose true (Some label_id)
              calibration do_probs Hlen Hrank) as (per & Hper & Hrun).
  { intros l Hl; inversion Hl; subst; exact Hlabel. }
  exists per. split; [exact Hrun|].
  eapply Forall2_impl; [|exact Hper].
  intros dp es (k & a & opt & Hsel & first & (la & lopt & Hlab & ->) & ->).
  exists la, lopt, k, a, opt. auto.
Qed.

(* ------------------------------------------------------------------ *)
(** ** Predictions are trimmed *)

Lemma lstrip_head (l : list ascii) (c : ascii) (r : list ascii) :
  lstrip l = c :: r -> py_isspace c = false.
Proof.
  induction l as [|x l IH]; simpl; [discriminate|].
  destruct (py_isspace x) eqn:Ex; [exact IH|]. intros E; inversion E; subst; exact Ex.
Qed.

Lemma lstrip_suffix (l : list ascii) : exists sp, l = sp ++ lstrip l.
Proof.
  induction l as [|x l [sp IH]]; simpl; [now exists []|].
  destruct (py_isspace x); [|now exists []].
  exists (x :: sp). simpl. now f_equal.
Qed.

Lemma strip_is_trimmed (s : string) : is_trimmed (strip s) = true.
Proof.
  unfold is_trimmed, strip. rewrite list_ascii_of_string_of_list_ascii.
  set (a := lstrip (list_ascii_of_string s)).
  destruct (lstrip_suffix (rev a)) as [sp Hsp].
  destruct (lstrip (rev a)) as [|c b] eqn:Eb; [reflexivity|].
  pose proof (lstrip_head _ _ _ Eb) as Hc.
  apply (f_equal (@rev ascii)) in Hsp. rewrite rev_involutive, rev_app_distr in Hsp.
  destruct (rev (c :: b)) as [|c' b'] eqn:Er.
  { apply (f_equal (@length ascii)) in Er. rewrite length_rev in Er. discriminate. }
  assert (Hlast : last b' c' = c).
  { change (last b' c') with (last (c' :: b') c') at 1 || idtac.
    assert (last (c' :: b') c' = c).
    { rewrite <- Er. simpl rev. apply last_last. }
    destruct b'; simpl in *; auto. }
  rewrite Hlast, Hc.
  assert (Hc' : py_isspace c' = false).
  { apply (lstrip_head (list_ascii_of_string s) c' (b' ++ rev sp)). fold a. exact Hsp. }
  now rewrite Hc'.
Qed.

Section TrimmedFacts.
Context `{Numpy}.

Lemma predict_example_trimmed (losses : list float) (require_loss : bool)
      (label_id : option Z) (do_probs : bool) (predictions : list prediction)
      (dp : Metadata) :
  Forall (fun p => is_trimmed (prediction_text p) = true) predictions ->
  all_trimmed (predict_example losses require_loss label_id do_probs predictions dp).
Proof.
  intros Hpre preds'. unfold predict_example.
  destruct (aggregated losses dp) as [aggs|e'] eqn:Ea; cbn [bind]; [|discriminate].
  assert (Hlast : forall ps (t : string -> prediction) (x : Z * float),
             Forall (fun p => is_trimmed (prediction_text p) = true) ps ->
             (first <- py_index (options dp) (fst x) ;;
              Ok (ps ++ [t (strip first)])) = Ok preds' ->
             (forall s', prediction_text (t s') = s') ->
             Forall (fun p => is_trimmed (prediction_text p) = true) preds').
  { intros ps t x Hps E Ht.
    destruct (py_index (options dp) (fst x)) as [o|e']; cbn [bind] in E; [|discriminate].
    inversion E; subst. apply Forall_app. split; [exact Hps|].
    constructor; [|constructor]. rewrite Ht. apply strip_is_trimmed. }
  assert (Hrank : forall ps,
             Forall (fun p => is_trimmed (prediction_text p) = true) ps ->
             (if negb require_loss
              then first <- py_index (py_sorted snd false (enumerate aggs)) 0 ;;
                   prediction <- py_index (options dp) (fst first) ;;
                   Ok (ps ++ [Bare (strip prediction)])
              else prediction_terms <-
                     py_index (py_sorted snd (if do_probs then true else false)
                                         (enumerate aggs)) 0 ;;
                   prediction <- py_index (options dp) (fst prediction_terms) ;;
                   Ok (ps ++ [Scored (strip prediction) (snd prediction_terms)]))
             = Ok preds' ->
             Forall (fun p => is_trimmed (prediction_text p) = true) preds').
  { intros ps Hps. destruct require_loss; cbn [negb];
      match goal with |- context [py_index (py_sorted ?k ?r ?x) 0] =>
        destruct (py_index (py_sorted k r x) 0) as [t|e'] end; cbn [bind];
      try discriminate; intros E.
    - apply (Hlast ps (fun s' => Scored s' (snd t)) t Hps E). reflexivity.
    - apply (Hlast ps Bare t Hps E). reflexivity. }
  destruct label_id as [l|]; cbn [bind]; [|apply Hrank; exact Hpre].
  destruct (py_index (options dp) l) as [o|e']; cbn [bind]; [|discriminate].
  destruct (py_index aggs l) as [a|e']; cbn [bind]; [|discriminate].
  apply Hrank. apply Forall_app. split; [exact Hpre|].
  constructor; [|constructor]. apply strip_is_trimmed.
Qed.

Lemma predict_loop_trimmed (losses : list float) (require_loss : bool)
      (label_id : option Z) (do_probs : bool) (md : list Metadata)
      (acc : result (list prediction)) :
  all_trimmed acc ->
  all_trimmed
    (fold_left (fun acc dp =>
                  predictions <- acc ;;
                  predict_example losses require_loss label_id do_probs predictions dp)
               md acc).
Proof.
  revert acc; induction md as [|dp md IH]; intros acc Hacc; [exact Hacc|].
  cbn [fold_left]. apply IH. destruct acc as [preds|e]; cbn [bind].
  - apply predict_example_trimmed. now apply Hacc.
  - intros ps E; discriminate E.
Qed.
End TrimmedFacts.

(** X8: Every prediction text that [do_predict] returns has been stripped: it has
    no leading and no trailing whitespace, whatever the data and the flags
    are. *)
Theorem do_predict_trimmed {W : Type} `{Torch W} `{Numpy} (w : W) (data : Data)
        (batch_size : Z) (losses : option (list float)) (verbose require_loss : bool)
        (label_id : option Z) (calibration do_probs : bool)
        (predictions : list prediction) :
  do_predict w data batch_size losses verbose require_loss label_id calibration do_probs
  = Ok predictions ->
  Forall (fun p => is_trimmed (prediction_text p) = true) predictions.
Proof.
  unfold do_predict.
  destruct (negb _); [discriminate|].
  apply predict_loop_trimmed. intros ps E. inversion E. constructor.
Qed.

(* ------------------------------------------------------------------ *)
(** ** Every run of the training loop *)

Section TrainingRuns.
Context {W : Type} `{Torch W} `{Numpy}.
Variable self : Self.
Variable env : Env.
Variables num_training_steps save_period log_period gradient_accumulation_steps : Z.
Variable max_grad_norm : float.

Let step := train_batch self env num_training_steps save_period log_period
                        gradient_accumulation_steps max_grad_norm.

(** A NaN loss ends the pass over the batches, whatever the periods are. *)
Lemma train_batch_nan (st : train_state) (batch : Batch) :
  is_nan (batch_loss (weights st) batch) = true ->
  step st batch = Ok (after_nan st batch, Break).
Proof.
  intros Hnan. unfold step, train_batch, after_nan. unfold batch_loss in *. now rewrite Hnan.
Qed.


Hypothesis accumulation_nonzero : gradient_accumulation_steps <> 0.
Hypothesis log_nonzero : log_period <> 0.
Hypothesis save_nonzero : save_period <> 0.
Hypothesis backward_available : can_backward self env.


Hypothesis save_available : can_save self.

Let number := after_number self save_period log_period gradient_accumulation_steps
                           max_grad_norm.

(** One iteration on a batch whose loss is a number, field by field. *)
Lemma train_batch_number (st : train_state) (batch : Batch) :
  is_nan (batch_loss (weights st) batch) = false ->
  step st batch
  = Ok (number st batch,
        if global_step st + 1 =? num_training_steps then Break else Next).
Proof.
  intros Hnan. unfold number, after_number. cbv zeta.
  unfold step, train_batch. unfold batch_loss in *. rewrite Hnan.
  rewrite (backward_pass_ok _ _ _ _ backward_available), (save_ok _ _ save_available).
  unfold py_mod.
  destruct (Z.eqb_spec gradient_accumulation_steps 0) as [|_]; [contradiction|].
  destruct (Z.eqb_spec log_period 0) as [|_]; [contradiction|].
  destruct (Z.eqb_spec save_period 0) as [|_]; [contradiction|].
  cbn [bind].
  match goal with |- context [apply_update self max_grad_norm ?x] =>
    pose proof (apply_update_events self max_grad_norm x) as Hupd;
    destruct (apply_update self max_grad_norm x) as [w' evs] end.
  simpl in Hupd. subst evs. cbn [fst].
  destruct ((global_step st + 1) mod gradient_accumulation_steps =? 0);
    destruct ((global_step st + 1) mod log_period =? 0);
    destruct ((global_step st + 1) mod save_period =? 0);
    cbn [bind app]; rewrite <- ?app_assoc; cbn [app]; rewrite ?app_nil_r; reflexivity.
Qed.

(** *** Invariants of a whole run *)

Variable Inv : @train_state W -> Prop.
(** What is known of the batches the dataloader yields. *)
Variable yielded : Batch -> Prop.
Hypothesis Inv_nan :
  forall st batch, yielded batch -> Inv st -> 0 <= global_step st < num_training_steps ->
                   is_nan (batch_loss (weights st) batch) = true -> Inv (after_nan st batch).
Hypothesis Inv_number :
  forall st batch, yielded batch -> Inv st -> 0 <= global_step st < num_training_steps ->
                   is_nan (batch_loss (weights st) batch) = false -> Inv (number st batch).

Lemma train_batch_keeps (st : train_state) (batch : Batch) :
  yielded batch -> Inv st -> 0 <= global_step st < num_training_steps ->
  exists st' ctl,
    step st batch = Ok (st', ctl) /\ Inv st' /\ global_step st' = global_step st + 1
    /\ (ctl = Next -> global_step st' <> num_training_steps).
Proof.
  intros Hy HI Hg. destruct (is_nan (batch_loss (weights st) batch)) eqn:Hnan.
  - exists (after_nan st batch), Break. split; [now apply train_batch_nan|].
    split; [now apply Inv_nan|]. split; [reflexivity | discriminate].
  - eexists (number st batch), _. split; [now apply train_batch_number|].
    split; [now apply Inv_number|]. split; [reflexivity|].
    unfold number, after_number; cbn [global_step].
    destruct (Z.eqb_spec (global_step st + 1) num_training_steps); [discriminate | auto].
Qed.

Lemma train_epoch_keeps (batches : list Batch) (st : train_state) :
  Forall yielded batches ->
  Inv st -> 0 <= global_step st < num_training_steps ->
  exists st',
    train_epoch step st batches = Ok st' /\ Inv st'
    /\ 0 <= global_step st' <= num_training_steps.
Proof.
  intros Hy; revert st; induction Hy as [|batch rest Hb _ IH]; intros st HI Hg.
  - exists st. split; [reflexivity|]. split; [exact HI | lia].
  - destruct (train_batch_keeps st batch Hb HI Hg) as (st1 & ctl & Hrun & HI1 & Hg1 & Hctl).
    cbn [train_epoch]. rewrite Hrun. cbn [bind]. destruct ctl.
    + apply IH; [exact HI1|]. specialize (Hctl eq_refl). lia.
    + exists st1. split; [reflexivity|]. split; [exact HI1 | lia].
Qed.

Lemma train_epochs_keeps (dl : dataloader) (epochs : list nat) (st : train_state) :
  (forall epoch, Forall yielded (dl epoch)) ->
  Inv st -> 0 <= global_step st < num_training_steps ->
  exists st',
    train_epochs step num_training_steps dl st epochs = Ok st' /\ Inv st'
    /\ 0 <= global_step st' <= num_training_steps.
Proof.
  intros Hy; revert st; induction epochs as [|epoch rest IH]; intros st HI Hg.
  - exists st. split; [reflexivity|]. split; [exact HI | lia].
  - destruct (train_epoch_keeps (dl epoch) st (Hy epoch) HI Hg) as (st1 & Hrun & HI1 & Hg1).
    cbn [train_epochs]. rewrite Hrun. cbn [bind].
    destruct (Z.eqb_spec (global_step st1) num_training_steps) as [E|E].
    + exists st1. split; [reflexivity|]. split; [exact HI1 | lia].
    + apply IH; [exact HI1 | lia].
Qed.

Hypothesis Inv_finish :
  forall st, Inv st ->
             Inv {| global_step := global_step st; train_losses := train_losses st;
                    stop_training := stop_training st; weights := weights st;
                    trace := trace st ++ [LogInfo MsgFinish] |}.

Lemma do_train_keeps (w : W) (data : Data) (batch_size : Z) :
  (forall epoch, Forall yielded (get_dataloader data batch_size true false epoch)) ->
  Inv (initial_state self w data num_training_steps) ->
  exists st,
    do_train self env w data batch_size num_training_steps save_period log_period
             gradient_accumulation_steps max_grad_norm = Ok st
    /\ Inv st /\ 0 <= global_step st <= Z.max 0 num_training_steps.
Proof.
  intros Hy Hinit. unfold do_train. fold step.
  change {| global_step := 0; train_losses := []; stop_training := false; weights := w;
            trace := [LogInfo (MsgTraining (n_trainable_params w) (data_len data)
                                           num_training_steps (n_gpu self))] |}
    with (initial_state self w data num_training_steps).
  destruct (Z.lt_ge_cases 0 num_training_steps) as [Hn|Hn].
  - destruct (train_epochs_keeps (get_dataloader data batch_size true false)
                (seq 0 (Z.to_nat num_training_steps))
                (initial_state self w data num_training_steps) Hy Hinit)
      as (st & Hrun & HI & Hg); [simpl; lia|].
    rewrite Hrun. cbn [bind]. eexists. split; [reflexivity|].
    split; [now apply Inv_finish|]. cbn [global_step]. lia.
  - replace (Z.to_nat num_training_steps) with 0%nat by lia. cbn [seq train_epochs bind].
    eexists. split; [reflexivity|]. split; [now apply Inv_finish|]. simpl. lia.
Qed.
End TrainingRuns.


(** Splits the trace of [after_number] into its cases and counts. *)
Ltac count_number self :=
  unfold after_number, update_events, saved_events;
  cbn [trace global_step train_losses stop_training];
  rewrite ?count_events_app;
  repeat match goal with
         | |- context [if ?c then _ else _] => destruct c eqn:?
         end;
  unfold count_events in *;
  cbn [filter app length is_backward is_print_stop is_torch_save is_loss_log
       is_optimizer_step].

(** X9: With nonzero periods, apex importable when [fp16] is set and an output
    directory on the primary process, [do_train] returns, whatever the losses
    are; it never runs more than [num_training_steps] steps, and every step
    either backpropagates or stops on NaN. *)
Theorem do_train_step_budget {W : Type} `{Torch W} `{Numpy} (self : Self) (env : Env)
        (w : W) (data : Data)
        (batch_size num_training_steps save_period log_period gradient_accumulation_steps : Z)
        (max_grad_norm : float) :
  gradient_accumulation_steps <> 0 -> log_period <> 0 -> save_period <> 0 ->
  can_backward self env -> can_save self ->
  exists st,
    do_train self env w data batch_size num_training_steps save_period log_period
             gradient_accumulation_steps max_grad_norm = Ok st
    /\ 0 <= global_step st <= Z.max 0 num_training_steps
    /\ (count_events is_backward (trace st) + count_events is_print_stop (trace st))%nat
       = Z.to_nat (global_step st).
Proof.
  intros Hacc Hlog Hsave Hback Hdir.
  destruct (do_train_keeps self env num_training_steps save_period log_period
              gradient_accumulation_steps max_grad_norm Hacc Hlog Hsave Hback Hdir
              (fun st => 0 <= global_step st
                         /\ (count_events is_backward (trace st)
                             + count_events is_print_stop (trace st))%nat
                            = Z.to_nat (global_step st))
              (fun _ => True)) with (w := w) (data := data) (batch_size := batch_size)
    as (st & Hrun & [_ Hcount] & Hg).
  - intros st batch _ [Hg Hc] _ _. unfold after_nan; cbn [trace global_step].
    split; [lia|]. rewrite !count_events_app.
    unfold count_events in *; cbn [filter length is_backward is_print_stop]. lia.
  - intros st batch _ [Hg Hc] _ _. split; [unfold after_number; cbn [global_step]; lia|].
    count_number self; lia.
  - intros st [Hg Hc]. cbn [trace global_step]. split; [exact Hg|].
    rewrite !count_events_app. unfold count_events in *.
    cbn [filter length is_backward is_print_stop]. lia.
  - intros epoch. apply Forall_forall. auto.
  - split; [simpl; lia | reflexivity].
  - exists st. auto.
Qed.

(** X10: In such a run (nonzero periods, backward passes and checkpoints
    possible) the [stop_training] flag is set at the end exactly when a NaN
    loss has been seen (and printed); nothing else changes it. *)
Theorem do_train_stop_flag {W : Type} `{Torch W} `{Numpy} (self : Self) (env : Env)
        (w : W) (data : Data)
        (batch_size num_training_steps save_period log_period gradient_accumulation_steps : Z)
        (max_grad_norm : float) :
  gradient_accumulation_steps <> 0 -> log_period <> 0 -> save_period <> 0 ->
  can_backward self env -> can_save self ->
  exists st,
    do_train self env w data batch_size num_training_steps save_period log_period
             gradient_accumulation_steps max_grad_norm = Ok st
    /\ (stop_training st = true <-> count_events is_print_stop (trace st) <> 0%nat).
Proof.
  intros Hacc Hlog Hsave Hback Hdir.
  destruct (do_train_keeps self env num_training_steps save_period log_period
              gradient_accumulation_steps max_grad_norm Hacc Hlog Hsave Hback Hdir
              (fun st => stop_training st = true
                         <-> count_events is_print_stop (trace st) <> 0%nat)
              (fun _ => True)) with (w := w) (data := data) (batch_size := batch_size)
    as (st & Hrun & Hflag & _).
  - intros st batch _ _ _ _. unfold after_nan; cbn [trace stop_training].
    rewrite count_events_app. unfold count_events; cbn [filter length is_print_stop].
    split; [lia | reflexivity].
  - intros st batch _ Hflag _ _. rewrite Hflag. count_number self; lia.
  - intros st Hflag. cbn [trace stop_training]. rewrite Hflag, count_events_app.
    unfold count_events; cbn [filter length is_print_stop]. lia.
  - intros epoch. apply Forall_forall. auto.
  - simpl. split; [discriminate | intros Hc; now contradiction Hc].
  - exists st. auto.
Qed.

Lemma save_allowed_later {W : Type} (self : Self) (save_period : Z) (st st' : @train_state W)
      (tr : list event) :
  global_step st <= global_step st' ->
  Forall (save_allowed self save_period st) tr ->
  Forall (save_allowed self save_period st') tr.
Proof.
  intros Hg Hall. eapply Forall_impl; [|exact Hall].
  intros [] Hs; simpl in *; auto. lia.
Qed.

(** X11: In such a run checkpoints are written by the primary process only
    (rank at most 0), only at steps that are multiples of [save_period], and
    only for steps the run has reached: a worker of rank above 0 never writes
    one. *)
Theorem do_train_checkpoints {W : Type} `{Torch W} `{Numpy} (self : Self) (env : Env)
        (w : W) (data : Data)
        (batch_size num_training_steps save_period log_period gradient_accumulation_steps : Z)
        (max_grad_norm : float) :
  gradient_accumulation_steps <> 0 -> log_period <> 0 -> save_period <> 0 ->
  can_backward self env -> can_save self ->
  exists st,
    do_train self env w data batch_size num_training_steps save_period log_period
             gradient_accumulation_steps max_grad_norm = Ok st
    /\ Forall (save_allowed self save_period st) (trace st)
    /\ (0 < local_rank self -> count_events is_torch_save (trace st) = 0%nat).
Proof.
  intros Hacc Hlog Hsave Hback Hdir.
  destruct (do_train_keeps self env num_training_steps save_period log_period
              gradient_accumulation_steps max_grad_norm Hacc Hlog Hsave Hback Hdir
              (fun st => 0 <= global_step st
                         /\ Forall (save_allowed self save_period st) (trace st))
              (fun _ => True)) with (w := w) (data := data) (batch_size := batch_size)
    as (st & Hrun & [_ Hall] & _).
  - intros st batch _ [Hg Hall] _ _. split; [unfold after_nan; cbn [global_step]; lia|].
    unfold after_nan at 2; cbn [trace]. apply Forall_app. split.
    + apply (save_allowed_later self save_period st); [simpl; lia | exact Hall].
    + repeat constructor.
  - intros st batch _ [Hg Hall] _ _.
    split; [unfold after_number; cbn [global_step]; lia|].
    unfold after_number at 2; cbn [trace]. apply Forall_app. split.
    + apply (save_allowed_later self save_period st);
        [unfold after_number; cbn [global_step]; lia | exact Hall].
    + unfold update_events, saved_events.
      destruct ((global_step st + 1) mod gradient_accumulation_steps =? 0);
        destruct ((global_step st + 1) mod log_period =? 0);
        destruct (Z.eqb_spec ((global_step st + 1) mod save_period) 0);
        destruct (has_scheduler self); destruct (Z.leb_spec (local_rank self) 0);
        cbn [app]; repeat constructor;
        unfold after_number; cbn [global_step]; lia.
  - intros st [Hg Hall]. cbn [trace global_step]. split; [exact Hg|].
    apply Forall_app. split; [|repeat constructor].
    eapply save_allowed_later; [|exact Hall]. simpl; lia.
  - intros epoch. apply Forall_forall. auto.
  - split; [simpl; lia | repeat constructor].
  - exists st. split; [exact Hrun|]. split; [exact Hall|].
    intros Hrank. apply count_none. eapply Forall_impl; [|exact Hall].
    intros [] Hs; simpl in *; auto. lia.
Qed.


(** X13: A period equal to zero is an error as soon as a loss is a number: the
    first batch of a run with a positive number of steps raises
    [ZeroDivisionError] after its backward pass (which needs apex when [fp16]
    is set: the import comes first). *)
Theorem do_train_zero_period {W : Type} `{Torch W} `{Numpy} (self : Self) (env : Env)
        (w : W) (data : Data)
        (batch_size num_training_steps save_period log_period gradient_accumulation_steps : Z)
        (max_grad_norm : float) (batch : Batch) (rest : list Batch) :
  0 < num_training_steps ->
  get_dataloader data batch_size true false 0%nat = batch :: rest ->
  is_nan (batch_loss w batch) = false ->
  can_backward self env ->
  gradient_accumulation_steps = 0 \/ log_period = 0 \/ save_period = 0 ->
  do_train self env w data batch_size num_training_steps save_period log_period
           gradient_accumulation_steps max_grad_norm = Raise ZeroDivisionError.
Proof.
  intros Hn Hdl Hnan Hback Hzero. unfold do_train.
  destruct (Z.to_nat num_training_steps) as [|k] eqn:Ek; [lia|].
  cbn [seq train_epochs]. rewrite Hdl. cbn [train_epoch].
  unfold train_batch at 1. cbn [weights global_step train_losses trace].
  unfold batch_loss in Hnan. rewrite Hnan.
  rewrite (backward_pass_ok _ _ _ _ Hback). unfold py_mod.
  destruct (Z.eqb_spec gradient_accumulation_steps 0) as [|Hacc]; [reflexivity|].
  cbn [bind].
  match goal with |- context [apply_update self max_grad_norm ?x] =>
    destruct (apply_update self max_grad_norm x) as [w' evs] end.
  destruct ((0 + 1) mod gradient_accumulation_steps =? 0);
    (destruct (Z.eqb_spec log_period 0) as [|Hlog]; [reflexivity|]);
    cbn [bind]; destruct ((0 + 1) mod log_period =? 0);
    (destruct (Z.eqb_spec save_period 0) as [|Hsave]; [reflexivity|]);
    exfalso; lia.
Qed.

(** X14: Without steps to run there is nothing to divide: when
    [num_training_steps] is not positive, or every pass of the dataloader is
    empty, [do_train] only logs its two messages, whatever the periods. *)
Theorem do_train_nothing_to_do {W : Type} `{Torch W} `{Numpy} (self : Self) (env : Env)
        (w : W) (data : Data)
        (batch_size num_training_steps save_period log_period gradient_accumulation_steps : Z)
        (max_grad_norm : float) :
  num_training_steps <= 0
  \/ (forall epoch, get_dataloader data batch_size true false epoch = []) ->
  do_train self env w data batch_size num_training_steps save_period log_period
           gradient_accumulation_steps max_grad_norm
  = Ok {| global_step := 0; train_losses := []; stop_training := false; weights := w;
          trace := [LogInfo (MsgTraining (n_trainable_params w) (data_len data)
                                         num_training_steps (n_gpu self));
                    LogInfo MsgFinish] |}.
Proof.
  intros Hcase. unfold do_train.
  match goal with |- context [train_epochs ?f _ _ ?s ?l] =>
    assert (Hrun : train_epochs f num_training_steps
                                (get_dataloader data batch_size true false) s l = Ok s) end.
  { destruct Hcase as [Hn|Hempty].
    - replace (Z.to_nat num_training_steps) with 0%nat by lia. reflexivity.
    - generalize (seq 0 (Z.to_nat num_training_steps)).
      induction l as [|epoch l IH]; [reflexivity|].
      cbn [train_epochs]. rewrite Hempty. cbn [train_epoch bind global_step].
      destruct (0 =? num_training_steps); [reflexivity | exact IH]. }
  rewrite Hrun. reflexivity.
Qed.

(* ------------------------------------------------------------------ *)
(** ** Runs that the constructor's defaults make fail *)




(* ------------------------------------------------------------------ *)
(** ** Checkpoints *)

Lemma prefix_append (p k : string) : String.prefix p (p ++ k) = true.
Proof.
  induction p as [|c p IH]; simpl; [destruct k; reflexivity|].
  destruct (ascii_dec c c); [exact IH | congruence].
Qed.

Lemma string_drop_append (p k : string) : string_drop (String.length p) (p ++ k) = k.
Proof. induction p as [|c p IH]; simpl; auto. Qed.

Lemma dict_get_set {V} (d : list (string * V)) (k k' : string) (v : V) :
  dict_get (dict_set d k v) k' = if String.eqb k k' then Some v else dict_get d k'.
Proof.
  induction d as [|[k0 v0] d IH]; simpl.
  - reflexivity.
  - destruct (String.eqb_spec k0 k) as [->|Hne]; simpl.
    + destruct (String.eqb k k'); reflexivity.
    + rewrite IH. destruct (String.eqb_spec k0 k') as [->|]; auto.
      destruct (String.eqb_spec k k'); [congruence | reflexivity].
Qed.

Lemma dict_set_fresh {V} (d : list (string * V)) (k : string) (v : V) :
  ~ In k (map fst d) -> dict_set d k v = d ++ [(k, v)].
Proof.
  induction d as [|[k0 v0] d IH]; simpl; intros Hnot; [reflexivity|].
  destruct (String.eqb_spec k0 k) as [->|]; [tauto|]. rewrite IH; tauto.
Qed.

Lemma fold_dict_get {V} (sd : list (string * V)) (d : list (string * V)) (k : string) :
  dict_get (fold_left (fun d kv => dict_set d (saved_key (fst kv)) (snd kv)) sd d) k
  = match last_value sd k with
    | Some v => Some v
    | None => dict_get d k
    end.
Proof.
  revert d; induction sd as [|[k0 v0] sd IH]; intros d; simpl; [reflexivity|].
  rewrite IH. unfold last_value. simpl rev. rewrite filter_app. simpl filter.
  destruct (filter _ (rev sd)) as [|kv l]; simpl.
  - rewrite dict_get_set. destruct (String.eqb (saved_key k0) k); reflexivity.
  - reflexivity.
Qed.

Lemma fold_dict_fresh {V} (sd : list (string * V)) (d : list (string * V)) :
  NoDup (map fst d ++ map (fun kv => saved_key (fst kv)) sd) ->
  fold_left (fun d kv => dict_set d (saved_key (fst kv)) (snd kv)) sd d
  = d ++ map (fun kv => (saved_key (fst kv), snd kv)) sd.
Proof.
  revert d; induction sd as [|[k0 v0] sd IH]; intros d Hnd; simpl.
  - now rewrite app_nil_r.
  - simpl in Hnd. rewrite dict_set_fresh.
    + rewrite IH.
      * now rewrite <- app_assoc.
      * rewrite map_app. simpl. rewrite <- app_assoc. exact Hnd.
    + apply NoDup_remove_2 in Hnd. intros Hin. apply Hnd. apply in_or_app. now left.
Qed.

(** X18: [save] removes one "module." prefix, the one a parallel wrapper adds:
    the name "module." ++ k is saved as k.  When no two parameters get the
    same saved name, the checkpoint holds one entry per parameter, in order;
    in particular the checkpoint of a wrapped model is the state dict of the
    model inside. *)
Theorem checkpoint_of_wrapped_model {V : Type} (state_dict : list (string * V)) :
  (forall k, saved_key ("module." ++ k) = k)
  /\ (NoDup (map (fun kv => saved_key (fst kv)) state_dict) ->
      model_state_dict state_dict
      = map (fun kv => (saved_key (fst kv), snd kv)) state_dict)
  /\ (NoDup (map fst state_dict) ->
      model_state_dict (map (fun kv => (("module." ++ fst kv)%string, snd kv)) state_dict)
      = state_dict).
Proof.
  assert (Hkey : forall k, saved_key ("module." ++ k) = k).
  { intros k. unfold saved_key.
    rewrite prefix_append.
    apply (string_drop_append "module."%string k). }
  assert (Hfresh : forall sd : list (string * V),
             NoDup (map (fun kv => saved_key (fst kv)) sd) ->
             model_state_dict sd = map (fun kv => (saved_key (fst kv), snd kv)) sd).
  { intros sd Hnd. unfold model_state_dict. now rewrite fold_dict_fresh. }
  split; [exact Hkey|]. split; [apply Hfresh|].
  intros Hnd. rewrite Hfresh.
  - rewrite map_map. cbn [fst snd].
    rewrite <- (map_id state_dict) at 2. apply map_ext.
    intros [k v]. cbn [fst snd]. now rewrite Hkey.
  - rewrite map_map. cbn [fst]. erewrite map_ext; [exact Hnd|].
    intros [k v]. cbn [fst]. apply Hkey.
Qed.

(** X19: When two parameters get the same saved name (as "module.a" and "a" do),
    the checkpoint keeps one entry for the name and it holds the value of the
    later parameter. *)
Theorem checkpoint_last_value_wins {V : Type} (state_dict : list (string * V)) (k : string) :
  dict_get (model_state_dict state_dict) k = last_value state_dict k.
Proof.
  unfold model_state_dict. rewrite fold_dict_get.
  destruct (last_value state_dict k); reflexivity.
Qed.

Lemma append_inj_l (p a b : string) : (p ++ a = p ++ b)%string -> a = b.
Proof. induction p as [|c p IH]; simpl; intros E; [exact E | inversion E; auto]. Qed.

Lemma append_length (a b : string) :
  String.length (a ++ b) = (String.length a + String.length b)%nat.
Proof. induction a as [|c a IH]; simpl; auto. Qed.

Lemma append_inj_r (a b t : string) : (a ++ t = b ++ t)%string -> a = b.
Proof.
  revert b; induction a as [|c a IH]; intros [|d b] E; simpl in E.
  - reflexivity.
  - apply (f_equal String.length) in E. simpl in E. rewrite append_length in E. lia.
  - apply (f_equal String.length) in E. simpl in E. rewrite append_length in E. lia.
  - inversion E; subst. f_equal. now apply IH.
Qed.

Lemma format_int_inj (z1 z2 : Z) : format_int z1 = format_int z2 -> z1 = z2.
Proof.
  unfold format_int. intros E.
  assert (Hnil : forall z, Z.to_int z <> Decimal.Pos Decimal.Nil
                           /\ Z.to_int z <> Decimal.Neg Decimal.Nil).
  { intros z. split; intros Hz; pose proof (of_to z) as Hof; rewrite Hz in Hof;
      simpl in Hof; subst z; discriminate Hz. }
  pose proof (NilZero.isi (Z.to_int z1) (proj1 (Hnil z1)) (proj2 (Hnil z1))) as H1.
  pose proof (NilZero.isi (Z.to_int z2) (proj1 (Hnil z2)) (proj2 (Hnil z2))) as H2.
  rewrite E, H2 in H1. inversion H1 as [H3].
  rewrite <- (of_to z1), <- (of_to z2). now rewrite H3.
Qed.

(** Checkpoints of different steps go to different files of the same
    directory. *)
Lemma checkpoint_path_inj (out_dir : string) (step1 step2 : Z) :
  checkpoint_path out_dir step1 = checkpoint_path out_dir step2 -> step1 = step2.
Proof.
  unfold checkpoint_path, path_join. cbn [String.append String.prefix].
  destruct (String.eqb out_dir "" || ends_with_slash out_dir); intros E.
  - apply append_inj_l in E. inversion E as [E']. apply append_inj_r in E'.
    now apply format_int_inj.
  - apply append_inj_l in E. inversion E as [E']. apply append_inj_r in E'.
    now apply format_int_inj.
Qed.

(* ------------------------------------------------------------------ *)
(** ** More on the optimiser setup *)

Lemma filter_partition_perm {A} (f : A -> bool) (l : list A) :
  Permutation (filter (fun a => negb (f a)) l ++ filter f l) l.
Proof.
  induction l as [|a l IH]; simpl; [constructor|].
  destruct (f a); simpl.
  - apply Permutation_sym, Permutation_cons_app, Permutation_sym, IH.
  - now constructor.
Qed.

(** X16: Whatever the strategy, a successful [setup_optimizer] hands the optimiser
    two parameter groups that split the model's parameters: every parameter
    is in exactly one of them, those whose name contains "bias" or
    "LayerNorm.weight" in the second, whose weight decay is 0; the first one
    has the configured weight decay. *)
Theorem setup_optimizer_groups {P : Type} (env : Env) (self : Self)
        (named_parameters : list (string * P)) (optimization : string)
        (num_training_steps : Z) (lr weight_decay : float) (warmup_steps : Z)
        (opt : optimizer P) (sched : option scheduler) :
  setup_optimizer env self named_parameters optimization num_training_steps
                  lr weight_decay warmup_steps = Ok (opt, sched) ->
  exists decayed undecayed,
    opt_groups opt = [ {| params := decayed; weight_decay := weight_decay |};
                       {| params := undecayed; weight_decay := fzero |} ]
    /\ Permutation (decayed ++ undecayed) (map snd named_parameters)
    /\ undecayed
       = map snd (filter (fun np => contains "bias" (fst np)
                                    || contains "LayerNorm.weight" (fst np))
                         named_parameters).
Proof.
  intros Hrun.
  assert (Hgroups : opt_groups opt
                    = optimizer_grouped_parameters named_parameters weight_decay).
  { unfold setup_optimizer, setup_fp16 in Hrun.
    destruct (String.eqb optimization "adafactor"); [now inversion Hrun|].
    destruct (String.prefix "adamw" optimization).
    - destruct (fp16 self); [destruct (apex_importable env)|]; cbn [bind] in Hrun;
        try discriminate;
        (destruct (String.eqb optimization "adamw"); [now inversion Hrun | discriminate]).
    - destruct (String.eqb optimization "8bit-adam"); [|discriminate].
      destruct (negb (bitsandbytes_importable env)); [discriminate|].
      destruct (fp16 self); [destruct (apex_importable env)|]; cbn [bind] in Hrun;
        try discriminate; now inversion Hrun. }
  rewrite Hgroups. unfold optimizer_grouped_parameters.
  eexists _, _. split; [reflexivity|]. split.
  - rewrite <- map_app. apply Permutation_map.
    apply (filter_partition_perm
             (fun np => existsb (fun nd => contains nd (fst np)) no_decay)).
  - f_equal. apply filter_ext. intros np. unfold no_decay. simpl.
    now rewrite orb_false_r.
Qed.

(** X17: A successful [setup_optimizer] pairs each strategy with its optimiser and
    schedule: "adafactor" gets no scheduler and is never wrapped for fp16;
    "adamw" and "8bit-adam" get the linear warm-up schedule over the given
    steps and are wrapped for fp16 exactly when [fp16] is set.  No other name
    succeeds. *)
Theorem setup_optimizer_pairing {P : Type} (env : Env) (self : Self)
        (named_parameters : list (string * P)) (optimization : string)
        (num_training_steps : Z) (lr weight_decay : float) (warmup_steps : Z)
        (opt : optimizer P) (sched : option scheduler) :
  setup_optimizer env self named_parameters optimization num_training_steps
                  lr weight_decay warmup_steps = Ok (opt, sched) ->
  opt_lr opt = lr
  /\ ((optimization = "adafactor"%string /\ opt_class opt = Adafactor
       /\ sched = None /\ opt_amp opt = false)
      \/ ((optimization = "adamw"%string /\ opt_class opt = AdamW
           \/ optimization = "8bit-adam"%string /\ opt_class opt = Adam8bit)
          /\ sched = Some {| num_warmup_steps := warmup_steps;
                             sched_training_steps := num_training_steps |}
          /\ opt_amp opt = fp16 self)).
Proof.
  unfold setup_optimizer, setup_fp16.
  destruct (String.eqb_spec optimization "adafactor") as [->|Haf].
  { intros E; inversion E; subst; cbn. auto 10. }
  destruct (String.prefix "adamw" optimization).
  - destruct (fp16 self); [destruct (apex_importable env)|]; cbn [bind];
      try discriminate;
      (destruct (String.eqb_spec optimization "adamw") as [->|]; [|discriminate]);
      intros E; inversion E; subst; cbn; auto 10.
  - destruct (String.eqb_spec optimization "8bit-adam") as [->|]; [|discriminate].
    destruct (negb (bitsandbytes_importable env)); [discriminate|].
    destruct (fp16 self); [destruct (apex_importable env)|]; cbn [bind];
      try discriminate; intros E; inversion E; subst; cbn; auto 10.
Qed.

(* ------------------------------------------------------------------ *)
(** ** Construction, loading and wrapping *)

(** X21: After [__init__], [parallel] puts at most one wrapper around the model:
    [DataParallel] in single-process mode with several GPUs,
    [DistributedDataParallel] in distributed mode, never both (the
    constructor sets [n_gpu] to 1 in distributed mode).  So the single
    "module." prefix that [save] strips is the only one there is. *)
Theorem parallel_wraps_once (m : Machine) (out_dir : option string) (fp16 : bool)
        (local_rank : Z) (args : option string) (obj : Object) (events : list setup_event) :
  init m out_dir fp16 local_rank args = InitOk obj events ->
  o_wrappers (parallel obj)
  = (if local_rank =? -1
     then (if 1 <? cuda_device_count m then [DataParallel] else [])
     else [DistributedDataParallel local_rank])
  /\ (length (o_wrappers (parallel obj)) <= 1)%nat.
Proof.
  unfold init. destruct (Z.eqb_spec local_rank (-1)) as [->|Hd].
  - intros E; inversion E; subst. unfold parallel; cbn.
    destruct (1 <? cuda_device_count m); cbn; auto.
  - destruct (world_size m) as [ws|]; [|discriminate].
    intros E; inversion E; subst. unfold parallel; cbn.
    destruct (Z.eqb_spec local_rank (-1)); [contradiction|]. cbn; auto.
Qed.

(** X22: [load] succeeds exactly for the names that contain one of the four
    family names; the recorded [model_name] is then the path given to
    [from_pretrained], and a gpt name is never used as a path itself.  For any
    other name [load] fails on the unbound [model] after it has already
    overwritten [model_name], leaving the model as it was. *)
Theorem load_outcomes (obj : Object) (name : string) :
  o_args obj = Some name ->
  (existsb (fun family => contains family name) families = false ->
   load obj = LoadUnboundLocalError (with_model obj (Some name) (o_model obj)))
  /\ (existsb (fun family => contains family name) families = true ->
      exists obj' model,
        load obj = LoadOk obj'
        /\ o_model obj' = Some model
        /\ o_model_name obj' = Some (pretrained_path model)
        /\ (contains "llama" name = true -> loader model = LlamaForCausalLM)
        /\ (contains "llama" name = false -> contains "falcon" name = false ->
            contains "mosaic" name = false -> In (pretrained_path model) gpt_paths)).
Proof.
  intros Hargs. unfold load. rewrite Hargs. unfold families. cbn [existsb].
  destruct (contains "llama" name) eqn:Hl; cbn [orb].
  { split; [discriminate|]. intros _. eexists _, _. split; [reflexivity|]. cbn.
    repeat split; auto; discriminate. }
  destruct (contains "falcon" name) eqn:Hf; cbn [orb].
  { split; [discriminate|]. intros _. eexists _, _. split; [reflexivity|]. cbn.
    repeat split; auto; discriminate. }
  destruct (contains "mosaic" name) eqn:Hm; cbn [orb].
  { split; [discriminate|]. intros _. eexists _, _. split; [reflexivity|]. cbn.
    repeat split; auto; discriminate. }
  destruct (contains "gpt" name) eqn:Hg; cbn [orb].
  { split; [discriminate|]. intros _. eexists _, _. split; [reflexivity|]. cbn.
    repeat split; auto; try discriminate. intros _ _ _. unfold gpt_paths.
    destruct (String.eqb name "gpt-neo-1.3B"); [simpl; auto|].
    destruct (String.eqb name "gpt-neo2"); [simpl; auto|].
    destruct (String.eqb name "gpt-neox"); simpl; auto. }
  split; [reflexivity | discriminate].
Qed.

(* ------------------------------------------------------------------ *)
(** ** A run never overwrites its checkpoints *)

Lemma saved_steps_app (tr1 tr2 : list event) :
  saved_steps (tr1 ++ tr2) = saved_steps tr1 ++ saved_steps tr2.
Proof. apply flat_map_app. Qed.

(** X15: A run that can do its backward passes and can save never writes two
    checkpoints to the same file: the steps of its checkpoints are pairwise
    different, hence so are their paths in [self.out_dir]. *)
Theorem do_train_checkpoint_files_distinct {W : Type} `{Torch W} `{Numpy} (self : Self) (env : Env) (w : W)
        (data : Data)
        (batch_size num_training_steps save_period log_period gradient_accumulation_steps : Z)
        (max_grad_norm : float) :
  gradient_accumulation_steps <> 0 -> log_period <> 0 -> save_period <> 0 ->
  can_backward self env -> can_save self ->
  exists st,
    do_train self env w data batch_size num_training_steps save_period log_period
             gradient_accumulation_steps max_grad_norm = Ok st
    /\ NoDup (saved_steps (trace st))
    /\ (forall dir, out_dir self = Some dir ->
                    NoDup (map (checkpoint_path dir) (saved_steps (trace st)))).
Proof.
  intros Hacc Hlog Hsave Hback Hdir.
  destruct (do_train_keeps self env num_training_steps save_period log_period
              gradient_accumulation_steps max_grad_norm Hacc Hlog Hsave Hback Hdir
              (fun st => Forall (fun s => s <= global_step st) (saved_steps (trace st))
                         /\ NoDup (saved_steps (trace st)))
              (fun _ => True)) with (w := w) (data := data) (batch_size := batch_size)
    as (st & Hrun & [_ Hnd] & _).
  - intros st batch _ [Hle Hnd] _ _. unfold after_nan; cbn [trace global_step].
    rewrite saved_steps_app. cbn [saved_steps flat_map]. rewrite app_nil_r.
    split; [|exact Hnd]. eapply Forall_impl; [|exact Hle]. intros; simpl in *; lia.
  - intros st batch _ [Hle Hnd] _ _. unfold after_number; cbn [trace global_step].
    rewrite saved_steps_app.
    assert (Hnew : exists new, saved_steps
                     (Backward (fp16 self)
                      :: (if (global_step st + 1) mod gradient_accumulation_steps =? 0
                          then update_events self max_grad_norm else [])
                      ++ (if (global_step st + 1) mod log_period =? 0
                          then [LogInfo (MsgTrainLoss (local_rank self) (global_step st + 1)
                                   (np_mean (train_losses st
                                               ++ [batch_loss (weights st) batch])))]
                          else [])
                      ++ (if (global_step st + 1) mod save_period =? 0
                          then saved_events self (global_step st + 1) else [])) = new
                   /\ (new = [] \/ new = [global_step st + 1])).
    { eexists; split; [reflexivity|]. unfold update_events, saved_events.
      destruct ((global_step st + 1) mod gradient_accumulation_steps =? 0);
        destruct ((global_step st + 1) mod log_period =? 0);
        destruct ((global_step st + 1) mod save_period =? 0);
        destruct (has_scheduler self); destruct (local_rank self <=? 0); cbn; auto. }
    destruct Hnew as (new & -> & [-> | ->]).
    + rewrite app_nil_r. split; [|exact Hnd].
      eapply Forall_impl; [|exact Hle]. intros; simpl in *; lia.
    + split.
      * apply Forall_app. split; [|repeat constructor; lia].
        eapply Forall_impl; [|exact Hle]. intros; simpl in *; lia.
      * apply NoDup_app; [exact Hnd | repeat constructor; auto |].
        intros s Hs [<-|[]]. rewrite Forall_forall in Hle. specialize (Hle _ Hs). lia.
  - intros st [Hle Hnd]. cbn [trace global_step]. rewrite saved_steps_app.
    cbn [saved_steps flat_map]. rewrite app_nil_r. auto.
  - intros epoch. apply Forall_forall. auto.
  - split; repeat constructor.
  - exists st. split; [exact Hrun|]. split; [exact Hnd|]. intros dir _.
    apply Injective_map_NoDup; [|exact Hnd].
    intros s1 s2. apply checkpoint_path_inj.
Qed.

(** X20: Two checkpoints written to the same path of one directory are of the
    same step. *)
Theorem save_checkpoint_same_file {V : Type} (rank1 rank2 : Z) (out_dir path : string)
        (sd1 sd2 contents1 contents2 : list (string * V)) (step1 step2 : Z)
        (log1 log2 : log_msg) :
  save_checkpoint rank1 (Some out_dir) sd1 step1 = Written path contents1 log1 ->
  save_checkpoint rank2 (Some out_dir) sd2 step2 = Written path contents2 log2 ->
  step1 = step2.
Proof.
  unfold save_checkpoint.
  destruct (rank1 <=? 0); [|discriminate]. destruct (rank2 <=? 0); [|discriminate].
  intros E1 E2. inversion E1; inversion E2; subst.
  apply (checkpoint_path_inj out_dir). congruence.
Qed.

(* ------------------------------------------------------------------ *)
(** ** The properties above on examples *)

Lemma do_train_step_budget_witness :
  exists st,
    do_train fp32_self bare_env 0%nat nan_every_third 1 100 1000 1000 1 (of_int binary32 1)
    = Ok st
    /\ 0 <= global_step st <= Z.max 0 100
    /\ (count_events is_backward (trace st) + count_events is_print_stop (trace st))%nat
       = Z.to_nat (global_step st).
Proof.
  apply (do_train_step_budget fp32_self bare_env 0%nat nan_every_third 1 100 1000 1000 1);
    [lia | lia | lia | left; reflexivity | right; discriminate].
Defined.

Lemma do_train_stop_flag_witness :
  exists st,
    do_train fp32_self bare_env 0%nat nan_every_third 1 100 1000 1000 1 (of_int binary32 1)
    = Ok st
    /\ (stop_training st = true <-> count_events is_print_stop (trace st) <> 0%nat).
Proof.
  apply (do_train_stop_flag fp32_self bare_env 0%nat nan_every_third 1 100 1000 1000 1);
    [lia | lia | lia | left; reflexivity | right; discriminate].
Defined.

Lemma do_train_checkpoints_witness :
  exists st,
    do_train fp32_self bare_env 0%nat nan_every_third 1 100 7 1000 1 (of_int binary32 1)
    = Ok st
    /\ Forall (save_allowed fp32_self 7 st) (trace st)
    /\ (0 < local_rank fp32_self -> count_events is_torch_save (trace st) = 0%nat).
Proof.
  apply (do_train_checkpoints fp32_self bare_env 0%nat nan_every_third 1 100 7 1000 1);
    [lia | lia | lia | left; reflexivity | right; discriminate].
Defined.

Lemma do_train_checkpoint_files_distinct_witness :
  exists st,
    do_train fp32_self bare_env 0%nat nan_every_third 1 100 7 1000 1 (of_int binary32 1)
    = Ok st
    /\ NoDup (saved_steps (trace st))
    /\ (forall dir, out_dir fp32_self = Some dir ->
                    NoDup (map (checkpoint_path dir) (saved_steps (trace st)))).
Proof.
  apply (do_train_checkpoint_files_distinct fp32_self bare_env 0%nat nan_every_third
           1 100 7 1000 1);
    [lia | lia | lia | left; reflexivity | right; discriminate].
Defined.


Lemma do_train_zero_period_witness :
  do_train fp32_self bare_env 0%nat (training_data [scored_batch]) 1 10 5 3 0
           (of_int binary32 1)
  = Raise ZeroDivisionError.
Proof.
  apply (do_train_zero_period fp32_self bare_env 0%nat (training_data [scored_batch])
           1 10 5 3 0 (of_int binary32 1) scored_batch []);
    [lia | reflexivity | reflexivity | left; reflexivity | left; reflexivity].
Defined.

Lemma do_train_nothing_to_do_witness :
  do_train fp32_self bare_env 0%nat (training_data []) 1 10 0 0 0 (of_int binary32 1)
  = Ok {| global_step := 0; train_losses := []; stop_training := false; weights := 0%nat;
          trace := [LogInfo (MsgTraining 3 0 10 1); LogInfo MsgFinish] |}.
Proof.
  exact (do_train_nothing_to_do fp32_self bare_env 0%nat (training_data []) 1 10 0 0 0
           (of_int binary32 1) (or_intror (fun _ => eq_refl))).
Defined.



Lemma run_model_masked_out_poison_witness :
  nth_error (@run_model unit impossible_token_torch tt [[3; 0; 5]] [[1; 1; 1]]
                        [[0; 0; 1]] None) 0
  = Some S754_nan.
Proof.
  apply (@run_model_masked_out_poison unit impossible_token_torch
           1 3 tt [[3; 0; 5]] [[1; 1; 1]] [[0; 0; 1]] None
           0 0 [repeat fzero 8; repeat fzero 8; repeat fzero 8] [3; 0; 5] [0; 0; 1]
           (repeat fzero 8) 0);
    try reflexivity; [repeat split; repeat constructor | exact (fsum_nan binary32)].
Defined.

Lemma do_inference_length_witness :
  length (do_inference 0%nat three_options 1 false false true) = 4%nat.
Proof.
  apply (do_inference_length 0%nat three_options 1 false false true).
  constructor; [|constructor]. exists 4%nat, 2%nat.
  repeat split; repeat constructor.
Defined.

Lemma do_inference_probs_all_nan_witness :
  Forall (fun p => p = S754_nan)
         (do_inference 0%nat (training_data [scored_batch; unscored_batch]) 1 false false true).
Proof.
  apply (do_inference_probs_all_nan 0%nat (training_data [scored_batch; unscored_batch]) 1
           false false).
  - reflexivity.
  - exact (fsum_nan binary64).
  - right. left. reflexivity.
Defined.

Lemma do_predict_error_kinds_witness :
  AssertionError = AssertionError \/ AssertionError = IndexError.
Proof.
  apply (do_predict_error_kinds 0%nat wrong_length 1 None false false None false false).
  reflexivity.
Defined.

Lemma do_predict_index_out_of_bounds_witness :
  do_predict 0%nat index_beyond_losses 1 None false false None false false
  = Raise IndexError.
Proof.
  apply (do_predict_index_out_of_bounds 0%nat index_beyond_losses 1 None false false None
           false false
           {| options := [" apple"%string; "banana "%string; "cherry"%string];
              indices := [[0]; [1]; [2; 7]] |} [2; 7] 7).
  - reflexivity.
  - left. reflexivity.
  - right. right. left. reflexivity.
  - right. left. reflexivity.
  - right. vm_compute. discriminate.
Defined.

Lemma do_predict_no_options_witness :
  do_predict 0%nat no_options 1 None false true (Some 0) false false = Raise IndexError.
Proof.
  apply (do_predict_no_options 0%nat no_options 1 None false true (Some 0) false false
           {| options := []; indices := [] |}).
  - reflexivity.
  - left. reflexivity.
  - reflexivity.
Defined.

Lemma do_predict_label_and_ranked_entries_witness :
  exists per_example,
    do_predict 0%nat three_options 1 None false true (Some 2) false false
    = Ok (concat per_example)
    /\ Forall2 (fun dp entries => exists la lopt k a opt,
                   labelled (do_inference 0%nat three_options 1 false false false)
                            dp 2 la lopt
                   /\ selected false (do_inference 0%nat three_options 1 false false false)
                               dp k a opt
                   /\ entries = [Scored (strip lopt) la; Scored (strip opt) a])
               (metadata three_options) per_example.
Proof.
  apply (do_predict_label_and_ranked_entries 0%nat three_options 1 None false false false 2).
  - reflexivity.
  - exact three_options_rankable.
  - constructor; [|constructor]. unfold label_in_range; simpl; lia.
Defined.

Lemma do_predict_trimmed_witness :
  exists predictions,
    do_predict 0%nat three_options 1 None false false (Some 0) false false = Ok predictions
    /\ Forall (fun p => is_trimmed (prediction_text p) = true) predictions.
Proof.
  eexists. split; [vm_compute; reflexivity|].
  apply (do_predict_trimmed 0%nat three_options 1 None false false (Some 0) false false).
  vm_compute; reflexivity.
Defined.

Lemma setup_optimizer_groups_witness :
  exists decayed undecayed,
    [ {| params := [0%nat]; weight_decay := of_int binary32 1 |};
      {| params := [1%nat; 2%nat]; weight_decay := fzero |} ]
    = [ {| params := decayed; weight_decay := of_int binary32 1 |};
        {| params := undecayed; weight_decay := fzero |} ]
    /\ Permutation (decayed ++ undecayed) (map snd three_parameters)
    /\ undecayed
       = map snd (filter (fun np => contains "bias" (fst np)
                                    || contains "LayerNorm.weight" (fst np))
                         three_parameters).
Proof.
  apply (setup_optimizer_groups full_env fp16_self three_parameters "adamw" 100
           (of_int binary32 1) (of_int binary32 1) 10
           {| opt_class := AdamW;
              opt_groups := [ {| params := [0%nat]; weight_decay := of_int binary32 1 |};
                              {| params := [1%nat; 2%nat]; weight_decay := fzero |} ];
              opt_lr := of_int binary32 1; opt_amp := true |}
           (Some {| num_warmup_steps := 10; sched_training_steps := 100 |})).
  reflexivity.
Defined.

Lemma setup_optimizer_pairing_witness :
  exists opt sched,
    setup_optimizer full_env fp16_self three_parameters "8bit-adam" 100
                    (of_int binary32 1) fzero 10 = Ok (opt, sched)
    /\ opt_class opt = Adam8bit
    /\ sched = Some {| num_warmup_steps := 10; sched_training_steps := 100 |}
    /\ opt_amp opt = true.
Proof.
  eexists _, _. split; [reflexivity|].
  destruct (setup_optimizer_pairing full_env fp16_self three_parameters "8bit-adam" 100
              (of_int binary32 1) fzero 10 _ _ eq_refl)
    as [_ [(Hname & _) | ([[Hname _] | [_ Hclass]] & Hsched & Hamp)]];
    try discriminate Hname.
  split; [exact Hclass|]. split; [exact Hsched | exact Hamp].
Defined.

Lemma checkpoint_of_wrapped_model_witness :
  model_state_dict [("module.h.weight"%string, 1%nat); ("module.h.bias"%string, 2%nat)]
  = [("h.weight"%string, 1%nat); ("h.bias"%string, 2%nat)].
Proof.
  apply (checkpoint_of_wrapped_model
           [("h.weight"%string, 1%nat); ("h.bias"%string, 2%nat)]).
  repeat constructor; simpl; intuition discriminate.
Defined.

Lemma save_checkpoint_same_file_witness : 5 = 5.
Proof.
  apply (save_checkpoint_same_file 0 (-1) "out" "out/model-5.pt"
           [("a"%string, 1%nat)] [("b"%string, 2%nat)]
           [("a"%string, 1%nat)] [("b"%string, 2%nat)] 5 5 (MsgSaving 5) (MsgSaving 5));
    reflexivity.
Defined.

Lemma parallel_wraps_once_witness :
  o_wrappers (parallel
                {| o_out_dir := Some "out"%string; o_fp16 := false; o_local_rank := -1;
                   o_args := Some "gpt-j"%string; o_n_gpu := 2; o_device := DeviceCuda;
                   o_model_name := None; o_model := None; o_wrappers := []; o_mode := None |})
  = [DataParallel]
  /\ (length (o_wrappers (parallel
                {| o_out_dir := Some "out"%string; o_fp16 := false; o_local_rank := -1;
                   o_args := Some "gpt-j"%string; o_n_gpu := 2; o_device := DeviceCuda;
                   o_model_name := None; o_model := None; o_wrappers := [];
                   o_mode := None |})) <= 1)%nat.
Proof.
  apply (parallel_wraps_once two_gpus (Some "out"%string) false (-1) (Some "gpt-j"%string)
           _ [LogSetup (-1) 1]).
  reflexivity.
Defined.

Lemma load_outcomes_witness :
  let obj := {| o_out_dir := None; o_fp16 := true; o_local_rank := -1;
                o_args := Some "bert-base"%string; o_n_gpu := 1; o_device := DeviceCpu;
                o_model_name := None; o_model := None; o_wrappers := []; o_mode := None |} in
  load obj = LoadUnboundLocalError (with_model obj (Some "bert-base"%string) None).
Proof.
  cbv zeta.
  destruct (load_outcomes
              {| o_out_dir := None; o_fp16 := true; o_local_rank := -1;
                 o_args := Some "bert-base"%string; o_n_gpu := 1; o_device := DeviceCpu;
                 o_model_name := None; o_model := None; o_wrappers := []; o_mode := None |}
              "bert-base" eq_refl) as [Hfail _].
  apply Hfail. reflexivity.
Defined.
